(** * ArcynForge backend: a shallow embedding of [main.py] and [schemas.py]

    The HTTP handlers of [main.py] are modelled as computations in a small
    state-and-exception monad over a [world]: the optional store handle
    [db], the environment, the queue of background tasks scheduled by
    FastAPI, the outcomes of the store's successive calls (a call may
    raise), and a log of every store call the handlers make.  Records are
    JSON-like values; a MongoDB document is a Python dict, modelled as an
    association list whose keys are distinct. *)

From Stdlib Require Import String Ascii List ZArith Bool Lia.
Import ListNotations.
Open Scope string_scope.
Open Scope Z_scope.
Local Set Warnings "-register-all".

(** ** JSON / BSON values *)

(** An ObjectId is its binary: 12 bytes for every identifier the store
    assigns, modelled by the big-endian number they denote, in [0, 16^24).
    [ObjectId(str)] can also build a shorter binary (see [oid_of_string]);
    one of [k < 12] bytes is placed above, at [16^24 * (12 - k)] plus its
    number, so distinct binaries stay distinct and none equals a 12-byte
    one. *)
Definition oid := Z.

Inductive value :=
| VNull
| VBool (b : bool)
| VInt (z : Z)
| VStr (s : string)
| VOid (o : oid)
| VList (l : list value)
| VObj (fields : list (string * value)).

(** A Python dict with distinct keys, in insertion order. *)
Definition doc := list (string * value).

Fixpoint dict_get (k : string) (d : doc) : option value :=
  match d with
  | [] => None
  | (k', v) :: d' => if String.eqb k k' then Some v else dict_get k d'
  end.

(** [d[k] = v]: replaces the value in place, or appends a new key. *)
Fixpoint dict_set (k : string) (v : value) (d : doc) : doc :=
  match d with
  | [] => [(k, v)]
  | (k', v') :: d' =>
      if String.eqb k k' then (k', v) :: d' else (k', v') :: dict_set k v d'
  end.

(** [d.pop(k)]: [None] is the [KeyError]. *)
Fixpoint dict_pop (k : string) (d : doc) : option (value * doc) :=
  match d with
  | [] => None
  | (k', v) :: d' =>
      if String.eqb k k' then Some (v, d')
      else match dict_pop k d' with
           | Some (x, d'') => Some (x, (k', v) :: d'')
           | None => None
           end
  end.

(** Reading a key of a JSON object parsed by [json.loads]: the last
    occurrence of a key wins. *)
Definition json_get (k : string) (o : list (string * value)) : option value :=
  fold_left (fun acc kv => if String.eqb (fst kv) k then Some (snd kv) else acc)
    o None.

(** ** ObjectId: parsing and printing (bson's [ObjectId(str)] and [str(oid)]) *)

Definition hex_val (c : ascii) : option Z :=
  let n := Z.of_nat (nat_of_ascii c) in
  if (48 <=? n) && (n <=? 57) then Some (n - 48)
  else if (97 <=? n) && (n <=? 102) then Some (n - 87)
  else if (65 <=? n) && (n <=? 70) then Some (n - 55)
  else None.

(** A string of hexadecimal digits read as one big-endian number. *)
Definition hex_parse (cs : list ascii) : option Z :=
  fold_left (fun acc c =>
               match acc, hex_val c with
               | Some a, Some d => Some (a * 16 + d)
               | _, _ => None
               end) cs (Some 0).

(** [Py_ISSPACE]: the ASCII whitespace [bytes.fromhex] skips. *)
Definition is_space (c : ascii) : bool :=
  let n := nat_of_ascii c in
  (Nat.eqb n 32 || (Nat.leb 9 n && Nat.leb n 13))%bool.

(** [bytes.fromhex(s)] (CPython's [_PyBytes_FromHex]): whitespace before
    each byte is skipped, each byte is two adjacent hexadecimal digits, and
    anything else raises [ValueError]. *)
Fixpoint fromhex (cs : list ascii) : option (list Z) :=
  match cs with
  | [] => Some []
  | c :: cs' =>
      if is_space c then fromhex cs'
      else match cs' with
           | c2 :: cs'' =>
               match hex_val c, hex_val c2 with
               | Some t, Some b => option_map (cons (t * 16 + b)) (fromhex cs'')
               | _, _ => None
               end
           | [] => None
           end
  end.

(** The binary of [bytes] as an [oid]. *)
Definition oid_of_bytes (bs : list Z) : oid :=
  fold_left (fun a b => a * 256 + b) bs 0
  + 16 ^ 24 * (12 - Z.of_nat (List.length bs)).

(** [ObjectId(id_str)] for a string argument (bson's [__validate]): a
    string of length 24 is handed to [bytes.fromhex], whose [ValueError]
    becomes [InvalidId]; any other length is [InvalidId]. *)
Definition oid_of_string (s : string) : option oid :=
  let cs := list_ascii_of_string s in
  if Nat.eqb (List.length cs) 24 then option_map oid_of_bytes (fromhex cs) else None.

Definition hex_digit (n : Z) : ascii :=
  ascii_of_nat (Z.to_nat (if n <? 10 then 48 + n else 87 + n)).

(** The [k] lowest hexadecimal digits of [n], most significant first. *)
Fixpoint hex_digits (k : nat) (n : Z) : list ascii :=
  match k with
  | O => []
  | S k' => hex_digits k' (n / 16) ++ [hex_digit (n mod 16)]
  end.

(** [str(oid)]: [binascii.hexlify] of the 12 bytes, lower case. *)
Definition oid_str (o : oid) : string := string_of_list_ascii (hex_digits 24 o).

(** [str(v)] for the values this program converts: the [_id] of a stored
    record is always an ObjectId. *)
Definition py_str (v : value) : string :=
  match v with
  | VOid o => oid_str o
  | VStr s => s
  | VNull => "None"
  | VBool true => "True"
  | VBool false => "False"
  | _ => ""
  end.

(** ** [schemas.py]: the validated payloads *)

Record Project := mkProject {
  name : string;
  description : option string;
  language : string;
  framework : option string;
  tags : list string;
  settings : list (string * value)
}.

Record TuningJob := mkTuningJob {
  project_id : option string;
  model : string;
  objective : string;
  dataset : option string;
  status : string;
  params : list (string * value)
}.

Record StatusBody := mkStatusBody { body_status : string }.

Definition opt_str (o : option string) : value :=
  match o with Some s => VStr s | None => VNull end.

(** [project.model_dump()], fields in declaration order. *)
Definition project_dump (p : Project) : doc :=
  [("name", VStr (name p)); ("description", opt_str (description p));
   ("language", VStr (language p)); ("framework", opt_str (framework p));
   ("tags", VList (map VStr (tags p))); ("settings", VObj (settings p))].

(** [job.model_dump()]. *)
Definition tuningjob_dump (j : TuningJob) : doc :=
  [("project_id", opt_str (project_id j)); ("model", VStr (model j));
   ("objective", VStr (objective j)); ("dataset", opt_str (dataset j));
   ("status", VStr (status j)); ("params", VObj (params j))].

(** Pydantic validation of one field of a JSON object body ([None] is a
    validation error, reported as 422).  A required [str] field: *)
Definition v_req_str (k : string) (o : list (string * value)) : option string :=
  match json_get k o with Some (VStr s) => Some s | _ => None end.

(** A [str] field with a default. *)
Definition v_str (k : string) (dflt : string) (o : list (string * value))
  : option string :=
  match json_get k o with
  | None => Some dflt
  | Some (VStr s) => Some s
  | Some _ => None
  end.

(** An [Optional[str]] field with default [None]. *)
Definition v_opt_str (k : string) (o : list (string * value))
  : option (option string) :=
  match json_get k o with
  | None | Some VNull => Some None
  | Some (VStr s) => Some (Some s)
  | Some _ => None
  end.

Fixpoint all_strs (l : list value) : option (list string) :=
  match l with
  | [] => Some []
  | VStr s :: l' => option_map (cons s) (all_strs l')
  | _ :: _ => None
  end.

(** A [List[str]] field with [default_factory=list]. *)
Definition v_str_list (k : string) (o : list (string * value))
  : option (list string) :=
  match json_get k o with
  | None => Some []
  | Some (VList l) => all_strs l
  | Some _ => None
  end.

(** A [Dict[str, Any]] field with [default_factory=dict]. *)
Definition v_dict (k : string) (o : list (string * value))
  : option (list (string * value)) :=
  match json_get k o with
  | None => Some []
  | Some (VObj f) => Some f
  | Some _ => None
  end.

Definition validate_project (body : value) : option Project :=
  match body with
  | VObj o =>
      match v_req_str "name" o, v_opt_str "description" o,
            v_str "language" "javascript" o, v_opt_str "framework" o,
            v_str_list "tags" o, v_dict "settings" o with
      | Some n, Some d, Some l, Some f, Some t, Some st =>
          Some (mkProject n d l f t st)
      | _, _, _, _, _, _ => None
      end
  | _ => None
  end.

Definition validate_tuningjob (body : value) : option TuningJob :=
  match body with
  | VObj o =>
      match v_opt_str "project_id" o, v_str "model" "arcyn-prime" o,
            v_req_str "objective" o, v_opt_str "dataset" o,
            v_str "status" "queued" o, v_dict "params" o with
      | Some pid, Some m, Some obj, Some ds, Some st, Some ps =>
          Some (mkTuningJob pid m obj ds st ps)
      | _, _, _, _, _, _ => None
      end
  | _ => None
  end.

Definition validate_status_body (body : value) : option StatusBody :=
  match body with
  | VObj o => option_map mkStatusBody (v_req_str "status" o)
  | _ => None
  end.

(** ** The document store and the world the handlers run in *)

(** A store call, as recorded in the world's log. *)
Inductive call :=
| CListCollections
| CInsertOne (coll : string) (d : doc)
| CFind (coll : string) (filt : list (string * string)) (limit : Z)
| CFindOne (coll : string) (o : oid)
| CUpdateOne (coll : string) (o : oid) (field : string) (v : value).

Record store := mkStore {
  cols : list (string * list doc);   (** collections, in creation order *)
  next_oid : oid;                    (** the next ObjectId the store assigns *)
  db_name : string
}.

Record world := mkWorld {
  db : option store;                 (** [database.db]; [None] if not initialised *)
  database_url : option string;      (** [os.getenv("DATABASE_URL")] *)
  faults : list bool;                (** outcome of the next store calls:
                                         [true] raises; no entry left: succeeds *)
  tasks : list string;               (** background [_progress] tasks, by job id *)
  log : list call
}.

Definition set_db (w : world) (d : option store) : world :=
  mkWorld d (database_url w) (faults w) (tasks w) (log w).
Definition set_faults (w : world) (f : list bool) : world :=
  mkWorld (db w) (database_url w) f (tasks w) (log w).
Definition set_tasks (w : world) (t : list string) : world :=
  mkWorld (db w) (database_url w) (faults w) t (log w).
Definition set_log (w : world) (l : list call) : world :=
  mkWorld (db w) (database_url w) (faults w) (tasks w) l.

Fixpoint get_coll (cs : list (string * list doc)) (n : string) : list doc :=
  match cs with
  | [] => []
  | (n', ds) :: cs' => if String.eqb n n' then ds else get_coll cs' n
  end.

(** Writing a collection back; a collection is created on first write. *)
Fixpoint put_coll (cs : list (string * list doc)) (n : string) (ds : list doc)
  : list (string * list doc) :=
  match cs with
  | [] => [(n, ds)]
  | (n', ds') :: cs' =>
      if String.eqb n n' then (n', ds) :: cs' else (n', ds') :: put_coll cs' n ds
  end.

(** The filter [{"_id": o}]. *)
Definition has_id (o : oid) (d : doc) : bool :=
  match dict_get "_id" d with Some (VOid o') => Z.eqb o o' | _ => false end.

Fixpoint find_first (p : doc -> bool) (ds : list doc) : option doc :=
  match ds with
  | [] => None
  | d :: ds' => if p d then Some d else find_first p ds'
  end.

(** Updating the first record satisfying [p]; [None] when none matches. *)
Fixpoint update_first (p : doc -> bool) (f : doc -> doc) (ds : list doc)
  : option (list doc) :=
  match ds with
  | [] => None
  | d :: ds' =>
      if p d then Some (f d :: ds')
      else option_map (cons d) (update_first p f ds')
  end.

(** ** A state and exception monad *)

(** Python exceptions: [HTTPException(status_code, detail)], and any other
    exception (reported by FastAPI as a 500). *)
Inductive exc :=
| HTTPError (code : Z) (detail : string)
| PyError (what : string).

Definition M (A : Type) := world -> (exc + A) * world.

Definition ret {A} (a : A) : M A := fun w => (inr a, w).

Definition bind {A B} (m : M A) (k : A -> M B) : M B :=
  fun w => match m w with
           | (inl e, w') => (inl e, w')
           | (inr a, w') => k a w'
           end.

Notation "x <- m ;; k" := (bind m (fun x => k))
  (at level 61, m at next level, right associativity).
Notation "m ;;; k" := (bind m (fun _ => k))
  (at level 61, right associativity).

Definition raise {A} (e : exc) : M A := fun w => (inl e, w).

(** [try: m except Exception: h]. *)
Definition try_except {A} (m : M A) (h : exc -> M A) : M A :=
  fun w => match m w with
           | (inl e, w') => h e w'
           | r => r
           end.

Definition get_db : M (option store) := fun w => (inr (db w), w).

Definition get_database_url : M (option string) :=
  fun w => (inr (database_url w), w).

(** [background_tasks.add_task(_progress, job_id)]. *)
Definition add_task (job_id : string) : M unit :=
  fun w => (inr tt, set_tasks w (tasks w ++ [job_id])).

(** [time.sleep]: no observable effect on the store. *)
Definition sleep (secs : Z) : M unit := ret tt.

Definition store_error : exc := PyError "store error".

(** One call on [db[...]]: subscripting [None] raises [TypeError]; otherwise
    the call is logged and, unless the store raises, performed. *)
Definition store_op {A} (c : call) (f : store -> A * store) : M A :=
  fun w =>
    match db w with
    | None => (inl (PyError "TypeError: 'NoneType' object is not subscriptable"), w)
    | Some s =>
        let w1 := set_log w (log w ++ [c]) in
        match faults w with
        | true :: fs => (inl store_error, set_faults w1 fs)
        | _ => let (a, s') := f s in
               (inr a, set_db (set_faults w1 (tl (faults w))) (Some s'))
        end
    end.

Definition with_cols (s : store) (cs : list (string * list doc)) : store :=
  mkStore cs (next_oid s) (db_name s).

(** [db[coll].find_one({"_id": o})]. *)
Definition find_one (coll : string) (o : oid) : M (option doc) :=
  store_op (CFindOne coll o)
    (fun s => (find_first (has_id o) (get_coll (cols s) coll), s)).

(** [db[coll].update_one({"_id": o}, {"$set": {field: v}}).matched_count]. *)
Definition update_one (coll : string) (o : oid) (field : string) (v : value)
  : M Z :=
  store_op (CUpdateOne coll o field v)
    (fun s => match update_first (has_id o) (dict_set field v)
                      (get_coll (cols s) coll) with
              | None => (0, s)
              | Some ds => (1, with_cols s (put_coll (cols s) coll ds))
              end).

(** [db.list_collection_names()]. *)
Definition list_collection_names : M (list string) :=
  store_op CListCollections (fun s => (map fst (cols s), s)).

(** ** [database.py] (not among the sources) *)

(** The ServiceUnavailable condition, answered 503. *)
Definition db_unavailable : exc := HTTPError 503 "Database not available".

(** Modelled from the spec: [database.create_document], the adapter's
    [insert(collection_name, record) -> identifier].  It fails with
    ServiceUnavailable when the store handle is absent; otherwise the store assigns a fresh identifier, persists
    the record's field set under it and the identifier is returned as a
    string. *)
Definition create_document (coll : string) (data : doc) : M string :=
  d <- get_db ;;
  match d with
  | None => raise db_unavailable
  | Some _ =>
      store_op (CInsertOne coll data)
        (fun s => let o := next_oid s in
                  (oid_str o,
                   mkStore (put_coll (cols s) coll
                              (get_coll (cols s) coll ++ [("_id", VOid o) :: data]))
                           (o + 1) (db_name s)))
  end.

(** An exact-match filter; the filters of this program compare strings. *)
Definition matches (filt : list (string * string)) (d : doc) : bool :=
  forallb (fun kv => match dict_get (fst kv) d with
                     | Some (VStr v) => String.eqb v (snd kv)
                     | _ => false
                     end) filt.

(** The adapter's clamping of [limit]: at most 200, and 50 when
    non-positive. *)
Definition adapter_limit (limit : Z) : Z :=
  if limit <=? 0 then 50 else Z.min limit 200.

(** Modelled from the spec: [database.get_documents], the adapter's
    [find(collection_name, filter, limit) -> sequence of records]: the
    records satisfying the exact-match filter, in insertion order, at most
    [limit] of them with [limit] clamped to 200 and defaulting to 50 when
    non-positive; it fails with ServiceUnavailable when the store handle is
    absent. *)
Definition get_documents (coll : string) (filt : list (string * string)) (limit : Z)
  : M (list doc) :=
  d <- get_db ;;
  match d with
  | None => raise db_unavailable
  | Some _ =>
      store_op (CFind coll filt limit)
        (fun s => (firstn (Z.to_nat (adapter_limit limit))
                     (filter (matches filt) (get_coll (cols s) coll)), s))
  end.

(** ** [main.py] *)

(** [if db is None: raise HTTPException(status_code=503, ...)]. *)
Definition require_db : M unit :=
  d <- get_db ;;
  match d with None => raise db_unavailable | Some _ => ret tt end.

Definition read_root : M value :=
  ret (VObj [("message", VStr "ArcynForge Backend Running")]).

Definition hello : M value :=
  ret (VObj [("message", VStr "Hello from ArcynForge backend API")]).

Definition str_prefix80 (s : string) : string := substring 0 80 s.

Definition exc_str (e : exc) : string :=
  match e with HTTPError _ d => d | PyError s => s end.

(** [test_database]: the response dict is threaded through the body. *)
Definition test_database : M value :=
  d <- get_db ;;
  match d with
  | Some s =>
      url <- get_database_url ;;
      let base := [("backend", VStr "✅ Running");
                   ("database", VStr "✅ Available");
                   ("database_url",
                     VStr (match url with Some _ => "✅ Set" | None => "❌ Not Set" end));
                   ("database_name", VStr (db_name s));
                   ("connection_status", VStr "Connected");
                   ("collections", VList [])] in
      try_except
        (names <- list_collection_names ;;
         ret (VObj (dict_set "database" (VStr "✅ Connected & Working")
                      (dict_set "collections" (VList (map VStr (firstn 10 names))) base))))
        (fun e => ret (VObj (dict_set "database"
                               (VStr ("⚠️  Connected but Error: " ++ str_prefix80 (exc_str e)))
                               base)))
  | None =>
      ret (VObj [("backend", VStr "✅ Running");
                 ("database", VStr "⚠️  Available but not initialized");
                 ("database_url", VNull); ("database_name", VNull);
                 ("connection_status", VStr "Not Connected");
                 ("collections", VList [])])
  end.

(** [Model.model_json_schema()], reduced to the title, the property names
    and the required ones. *)
Definition json_schema (title : string) (props required : list string) : value :=
  VObj [("properties", VObj (map (fun p => (p, VObj [])) props));
        ("required", VList (map VStr required));
        ("title", VStr title); ("type", VStr "object")].

Definition get_schema : M value :=
  ret (VObj [("models", VObj
    [("project", json_schema "Project"
        ["name"; "description"; "language"; "framework"; "tags"; "settings"] ["name"]);
     ("tuningjob", json_schema "TuningJob"
        ["project_id"; "model"; "objective"; "dataset"; "status"; "params"]
        ["objective"])])]).

(** [_oid]. *)
Definition _oid (id_str : string) : M oid :=
  match oid_of_string id_str with
  | Some o => ret o
  | None => raise (HTTPError 400 "Invalid ID format")
  end.

(** [limit or 50] on an [Optional[int]]. *)
Definition or_50 (limit : option Z) : Z :=
  match limit with
  | None => 50
  | Some z => if Z.eqb z 0 then 50 else z
  end.

(** [min(limit or 50, 200)]. *)
Definition list_limit (limit : option Z) : Z := Z.min (or_50 limit) 200.

(** [if "_id" in d: d["id"] = str(d.pop("_id"))]. *)
Definition rename_id (d : doc) : doc :=
  match dict_pop "_id" d with
  | Some (v, d') => dict_set "id" (VStr (py_str v)) d'
  | None => d
  end.

(** [doc["id"] = str(doc.pop("_id"))] on a found document; [doc] is [None]
    when the lookup found nothing. *)
Definition none_pop_error : exc :=
  PyError "AttributeError: 'NoneType' object has no attribute 'pop'".

Definition pop_id (doc : option doc) : M value :=
  match doc with
  | None => raise none_pop_error
  | Some d =>
      match dict_pop "_id" d with
      | Some (v, d') => ret (VObj (dict_set "id" (VStr (py_str v)) d'))
      | None => raise (PyError "KeyError: '_id'")
      end
  end.

(** [if not doc]: [None] or an empty dict. *)
Definition falsy_doc (doc : option doc) : bool :=
  match doc with None | Some [] => true | Some _ => false end.

Definition list_projects (limit : option Z) : M value :=
  require_db ;;;
  docs <- get_documents "project" [] (list_limit limit) ;;
  ret (VObj [("items", VList (map (fun d => VObj (rename_id d)) docs))]).

Definition create_project (project : Project) : M value :=
  require_db ;;;
  inserted_id <- create_document "project" (project_dump project) ;;
  ret (VObj [("id", VStr inserted_id)]).

Definition get_project (project_id : string) : M value :=
  require_db ;;;
  o <- _oid project_id ;;
  doc <- find_one "project" o ;;
  if falsy_doc doc then raise (HTTPError 404 "Project not found")
  else pop_id doc.

(** [if project_id: filt["project_id"] = project_id]. *)
Definition project_filter (project_id : option string) : list (string * string) :=
  match project_id with
  | Some p => if String.eqb p "" then [] else [("project_id", p)]
  | None => []
  end.

Definition list_tuning_jobs (limit : option Z) (project_id : option string)
  : M value :=
  require_db ;;;
  let filt := project_filter project_id in
  docs <- get_documents "tuningjob" filt (list_limit limit) ;;
  ret (VObj [("items", VList (map (fun d => VObj (rename_id d)) docs))]).

(** [not data.get("status")]: the status is absent, [None] or empty. *)
Definition blank (v : option value) : bool :=
  match v with
  | None | Some VNull | Some (VStr "") => true
  | _ => false
  end.

(** [data.get("status", "queued")]. *)
Definition get_or (k : string) (dflt : value) (d : doc) : value :=
  match dict_get k d with Some v => v | None => dflt end.

(** The background task [_progress] defined inside [create_tuning_job]. *)
Definition _progress (job_id : string) : M unit :=
  try_except
    (o <- _oid job_id ;;
     _ <- update_one "tuningjob" o "status" (VStr "running") ;;
     sleep 2 ;;;
     o' <- _oid job_id ;;
     _ <- update_one "tuningjob" o' "status" (VStr "completed") ;;
     ret tt)
    (fun _ =>
       try_except
         (o <- _oid job_id ;;
          _ <- update_one "tuningjob" o "status" (VStr "failed") ;;
          ret tt)
         (fun _ => ret tt)).

Definition create_tuning_job (job : TuningJob) : M value :=
  require_db ;;;
  let data0 := tuningjob_dump job in
  let data := if blank (dict_get "status" data0)
              then dict_set "status" (VStr "queued") data0 else data0 in
  inserted_id <- create_document "tuningjob" data ;;
  add_task inserted_id ;;;
  ret (VObj [("id", VStr inserted_id); ("status", get_or "status" (VStr "queued") data)]).

Definition update_tuning_job_status (job_id : string) (body : StatusBody)
  : M value :=
  require_db ;;;
  o <- _oid job_id ;;
  matched <- update_one "tuningjob" o "status" (VStr (body_status body)) ;;
  if Z.eqb matched 0 then raise (HTTPError 404 "Tuning job not found")
  else
    o' <- _oid job_id ;;
    doc <- find_one "tuningjob" o' ;;
    pop_id doc.

Definition get_tuning_job (job_id : string) : M value :=
  require_db ;;;
  o <- _oid job_id ;;
  doc <- find_one "tuningjob" o ;;
  if falsy_doc doc then raise (HTTPError 404 "Tuning job not found")
  else pop_id doc.

(** ** Routing *)

(** The query parameter [limit: Optional[int] = 50] as FastAPI's request
    validation leaves it: omitted (the declared default [50] applies), an
    integer, or a value pydantic does not parse as an integer (such as
    [limit=abc] or an empty [limit=]), which FastAPI answers with 422 before
    the handler runs.  A query string cannot supply [None]. *)
Inductive int_param :=
| QOmitted
| QInt (z : Z)
| QInvalid.

(** A request as FastAPI hands it over: the [limit] query parameter as its
    validation leaves it, a JSON body not yet validated. *)
Inductive request :=
| GetRoot
| GetHello
| GetTest
| GetSchema
| ListProjects (limit : int_param)
| CreateProject (body : value)
| GetProject (project_id : string)
| ListTuningJobs (limit : int_param) (project_id : option string)
| CreateTuningJob (body : value)
| UpdateTuningJobStatus (job_id : string) (body : value)
| GetTuningJob (job_id : string).

Definition validation_error : exc := HTTPError 422 "Unprocessable Entity".

(** Query parameters and body are validated before the handler runs. *)
Definition with_limit (l : int_param) (k : option Z -> M value) : M value :=
  match l with
  | QOmitted => k (Some 50)
  | QInt z => k (Some z)
  | QInvalid => raise validation_error
  end.

Definition serve (r : request) : M value :=
  match r with
  | GetRoot => read_root
  | GetHello => hello
  | GetTest => test_database
  | GetSchema => get_schema
  | ListProjects l => with_limit l list_projects
  | CreateProject b =>
      match validate_project b with
      | Some p => create_project p
      | None => raise validation_error
      end
  | GetProject i => get_project i
  | ListTuningJobs l p => with_limit l (fun lim => list_tuning_jobs lim p)
  | CreateTuningJob b =>
      match validate_tuningjob b with
      | Some j => create_tuning_job j
      | None => raise validation_error
      end
  | UpdateTuningJobStatus i b =>
      match validate_status_body b with
      | Some sb => update_tuning_job_status i sb
      | None => raise validation_error
      end
  | GetTuningJob i => get_tuning_job i
  end.

(** The HTTP status of a handler's outcome. *)
Definition status_code {A} (r : exc + A) : Z :=
  match r with
  | inr _ => 200
  | inl (HTTPError c _) => c
  | inl (PyError _) => 500
  end.

(** After the response, FastAPI runs the scheduled background task. *)
Definition run_next_task : M unit :=
  fun w =>
    match tasks w with
    | [] => (inr tt, w)
    | t :: ts => _progress t (set_tasks w ts)
    end.

(** The stored status of a tuning job, read without going through a handler. *)
Definition stored_status (w : world) (o : oid) : option value :=
  match db w with
  | None => None
  | Some s =>
      match find_first (has_id o) (get_coll (cols s) "tuningjob") with
      | Some d => dict_get "status" d
      | None => None
      end
  end.

(** The requests whose handler consults the store. *)
Definition store_endpoint (r : request) : bool :=
  match r with
  | GetRoot | GetHello | GetTest | GetSchema => false
  | _ => true
  end.

(** Whether a request passes FastAPI's validation: its [limit] query
    parameter and its body. *)
Definition request_valid (r : request) : bool :=
  match r with
  | ListProjects QInvalid | ListTuningJobs QInvalid _ => false
  | CreateProject b => if validate_project b then true else false
  | CreateTuningJob b => if validate_tuningjob b then true else false
  | UpdateTuningJobStatus _ b => if validate_status_body b then true else false
  | _ => true
  end.

Definition empty_store : store := mkStore [] 1 "arcynforge".
Definition world0 (d : option store) : world := mkWorld d None [] [] [].

Example ex_oid_roundtrip : oid_of_string (oid_str 1) = Some 1.
Proof. vm_compute. reflexivity. Qed.
Example ex_oid_str : oid_str 255 = "0000000000000000000000ff".
Proof. vm_compute. reflexivity. Qed.


(** ** Proofs *)

Ltac unfold_m :=
  unfold require_db, sleep, add_task, get_db, get_database_url, try_except,
    raise, ret, bind in *.

Lemma serve_store_endpoint_no_db (r : request) (w : world) :
  db w = None -> store_endpoint r = true -> request_valid r = true ->
  serve r w = (inl db_unavailable, w).
Proof.
  intros Hdb Hst Hb.
  destruct r as [| | | |l|b|i|l p|b|i b|i]; simpl in Hst, Hb |- *; try discriminate;
    try (destruct l; [| | discriminate]; simpl);
    repeat match goal with
           | |- context [validate_project ?b] => destruct (validate_project b); [|discriminate]
           | |- context [validate_tuningjob ?b] => destruct (validate_tuningjob b); [|discriminate]
           | |- context [validate_status_body ?b] => destruct (validate_status_body b); [|discriminate]
           end;
    unfold list_projects, create_project, get_project, list_tuning_jobs,
      create_tuning_job, update_tuning_job_status, get_tuning_job;
    unfold_m; cbv beta; rewrite Hdb; reflexivity.
Qed.

Lemma serve_invalid_request (r : request) (w : world) :
  request_valid r = false -> serve r w = (inl validation_error, w).
Proof.
  intros Hb.
  destruct r as [| | | |l|b|i|l p|b|i b|i]; simpl in Hb |- *; try discriminate;
    try (destruct l; [discriminate | discriminate | reflexivity]);
    repeat match goal with
           | H : context [validate_project ?b] |- _ =>
               destruct (validate_project b); [discriminate | reflexivity]
           | H : context [validate_tuningjob ?b] |- _ =>
               destruct (validate_tuningjob b); [discriminate | reflexivity]
           | H : context [validate_status_body ?b] |- _ =>
               destruct (validate_status_body b); [discriminate | reflexivity]
           end.
Qed.

Lemma serve_plain_endpoint_ok (r : request) (w : world) :
  store_endpoint r = false -> status_code (fst (serve r w)) = 200.
Proof.
  intros Hst.
  destruct r; simpl in Hst; try discriminate; try reflexivity.
  simpl. unfold test_database, list_collection_names, store_op. unfold_m.
  cbv beta iota.
  destruct (db w) as [s|] eqn:E; [|reflexivity].
  rewrite E. destruct (faults w) as [|[|] fs]; reflexivity.
Qed.

(** Claim C1 (as amended).  When the store handle is [None], every request
    to the seven project and tuning-job endpoints that passes FastAPI's
    validation (an omitted or integer [limit], a valid body) is answered 503
    without any store call, and one that fails it is answered 422; [GET /],
    [GET /api/hello], [GET /test] and [GET /schema] answer 200 in every
    world, whatever the store's state. *)
Theorem endpoints_503_without_db (r : request) (w : world) :
  (db w = None -> store_endpoint r = true -> request_valid r = true ->
   serve r w = (inl db_unavailable, w)) /\
  (db w = None -> request_valid r = false -> serve r w = (inl validation_error, w)) /\
  (store_endpoint r = false -> status_code (fst (serve r w)) = 200).
Proof.
  split; [|split].
  - apply serve_store_endpoint_no_db.
  - intros _. apply serve_invalid_request.
  - apply serve_plain_endpoint_ok.
Qed.

Lemma endpoints_503_without_db_witness :
  (db (world0 None) = None /\ store_endpoint (GetProject "x") = true /\
   request_valid (GetProject "x") = true) /\
  serve (GetProject "x") (world0 None) = (inl db_unavailable, world0 None) /\
  serve (ListProjects QInvalid) (world0 None) = (inl validation_error, world0 None) /\
  status_code (fst (serve GetTest (world0 (Some empty_store)))) = 200.
Proof.
  split; [repeat split|].
  split; [apply (proj1 (endpoints_503_without_db (GetProject "x") (world0 None)));
          reflexivity|].
  split; [apply (proj1 (proj2 (endpoints_503_without_db (ListProjects QInvalid)
                                 (world0 None)))); reflexivity|].
  apply (proj2 (proj2 (endpoints_503_without_db GetTest (world0 (Some empty_store))))).
  reflexivity.
Defined.

(** Claim C1 fails as stated: with no store handle, [GET /], [GET /api/hello],
    [GET /test] and [GET /schema] still answer 200, not 503. *)
Lemma endpoints_503_counterexample :
  db (world0 None) = None /\
  status_code (fst (serve GetRoot (world0 None))) = 200 /\
  status_code (fst (serve GetHello (world0 None))) = 200 /\
  status_code (fst (serve GetTest (world0 None))) = 200 /\
  status_code (fst (serve GetSchema (world0 None))) = 200.
Proof. repeat split; discriminate || reflexivity. Qed.

(** Claim C5.  With the store handle available, a get-by-id request (on
    projects or tuning jobs) whose identifier string [ObjectId(str)]
    rejects (a length other than 24, or 24 characters [bytes.fromhex]
    rejects) fails with 400 and leaves the world unchanged: in particular
    no store call is logged. *)
Theorem get_malformed_id_400 (w : world) (id : string) :
  db w <> None -> oid_of_string id = None ->
  serve (GetProject id) w = (inl (HTTPError 400 "Invalid ID format"), w) /\
  serve (GetTuningJob id) w = (inl (HTTPError 400 "Invalid ID format"), w).
Proof.
  intros Hdb Hid. simpl.
  unfold get_project, get_tuning_job, _oid. unfold_m.
  destruct (db w); [|congruence].
  rewrite Hid. split; reflexivity.
Qed.

Lemma get_malformed_id_400_witness :
  (db (world0 (Some empty_store)) <> None /\ oid_of_string "abc" = None) /\
  serve (GetProject "abc") (world0 (Some empty_store))
    = (inl (HTTPError 400 "Invalid ID format"), world0 (Some empty_store)) /\
  serve (GetTuningJob "abc") (world0 (Some empty_store))
    = (inl (HTTPError 400 "Invalid ID format"), world0 (Some empty_store)).
Proof.
  split; [split; [discriminate | reflexivity]|].
  apply get_malformed_id_400; [discriminate | reflexivity].
Defined.

(** Claim C10.  A tuning-job list request whose [project_id] is the empty
    string behaves exactly as one without [project_id]: same response, same
    store calls, same final world; no filter is applied. *)
Theorem list_tuning_jobs_empty_project_id (limit : int_param) (w : world) :
  serve (ListTuningJobs limit (Some "")) w = serve (ListTuningJobs limit None) w /\
  project_filter (Some "") = [].
Proof. split; reflexivity. Qed.

(** *** Monad and store lemmas *)

Lemma bind_ok {A B} (m : M A) (k : A -> M B) w a w' :
  m w = (inr a, w') -> bind m k w = k a w'.
Proof. intros E. unfold bind. rewrite E. reflexivity. Qed.

Lemma bind_err {A B} (m : M A) (k : A -> M B) w e w' :
  m w = (inl e, w') -> bind m k w = (inl e, w').
Proof. intros E. unfold bind. rewrite E. reflexivity. Qed.

Lemma require_db_ok w s : db w = Some s -> require_db w = (inr tt, w).
Proof. intros E. unfold require_db, bind, get_db. rewrite E. reflexivity. Qed.

Lemma oid_ok w id o : oid_of_string id = Some o -> _oid id w = (inr o, w).
Proof. intros E. unfold _oid. rewrite E. reflexivity. Qed.

Lemma oid_err w id : oid_of_string id = None ->
  _oid id w = (inl (HTTPError 400 "Invalid ID format"), w).
Proof. intros E. unfold _oid. rewrite E. reflexivity. Qed.

(** A store call either raises the store's error or returns what the
    operation computes, leaving the store it computes. *)
Lemma store_op_spec {A} c (f : store -> A * store) w s :
  db w = Some s ->
  (exists w', store_op c f w = (inl store_error, w')) \/
  (exists w', store_op c f w = (inr (fst (f s)), w') /\ db w' = Some (snd (f s))).
Proof.
  intros E. unfold store_op. rewrite E.
  destruct (faults w) as [|[|] fs]; destruct (f s) as [a s'] eqn:Ef; eauto.
Qed.

(** With no fault pending, a store call succeeds and logs itself. *)
Lemma store_op_healthy {A} c (f : store -> A * store) w s :
  db w = Some s -> faults w = [] ->
  store_op c f w
  = (inr (fst (f s)), set_db (set_faults (set_log w (log w ++ [c])) []) (Some (snd (f s)))).
Proof.
  intros E F. unfold store_op. rewrite E, F. destruct (f s); reflexivity.
Qed.

Lemma find_first_none_update (p : doc -> bool) f ds :
  find_first p ds = None -> update_first p f ds = None.
Proof.
  induction ds as [|d ds IH]; simpl; [reflexivity|].
  destruct (p d); [discriminate|]. intros H. rewrite IH by exact H. reflexivity.
Qed.

Lemma update_first_find (p : doc -> bool) f ds ds' :
  (forall d, p d = true -> p (f d) = true) ->
  update_first p f ds = Some ds' -> exists d, find_first p ds' = Some d.
Proof.
  intros Hpf. revert ds'.
  induction ds as [|d ds IH]; simpl; intros ds' H; [discriminate|].
  destruct (p d) eqn:Hp.
  - inversion H; subst. simpl. rewrite (Hpf d Hp). eauto.
  - destruct (update_first p f ds) as [l|] eqn:Hu; simpl in H; [|discriminate].
    inversion H; subst. simpl. rewrite Hp. apply IH. reflexivity.
Qed.

Lemma get_put_coll cs n ds : get_coll (put_coll cs n ds) n = ds.
Proof.
  induction cs as [|[n' ds'] cs IH]; simpl.
  - rewrite String.eqb_refl. reflexivity.
  - destruct (String.eqb n n') eqn:E; simpl; rewrite E; [reflexivity | exact IH].
Qed.

Lemma dict_get_set_other k k' v d :
  String.eqb k k' = false -> dict_get k (dict_set k' v d) = dict_get k d.
Proof.
  intros Hk. induction d as [|[k0 v0] d IH]; simpl.
  - rewrite Hk. reflexivity.
  - destruct (String.eqb k' k0) eqn:E; simpl.
    + apply String.eqb_eq in E. subst k0. rewrite Hk. reflexivity.
    + destruct (String.eqb k k0); [reflexivity | exact IH].
Qed.

Lemma has_id_set_status o v d :
  has_id o (dict_set "status" v d) = has_id o d.
Proof. unfold has_id. rewrite dict_get_set_other by reflexivity. reflexivity. Qed.

(** Claim C6.  With the store available and answering, a well-formed
    identifier that matches no stored record makes get-by-id (projects and
    tuning jobs) and update-status fail with 404; after the update-status
    404 the store is what it was. *)
Theorem missing_record_404 (w : world) (s : store) (id : string) (o : oid)
    (sb : StatusBody) :
  db w = Some s -> faults w = [] -> oid_of_string id = Some o ->
  (find_first (has_id o) (get_coll (cols s) "project") = None ->
   fst (get_project id w) = inl (HTTPError 404 "Project not found")) /\
  (find_first (has_id o) (get_coll (cols s) "tuningjob") = None ->
   fst (get_tuning_job id w) = inl (HTTPError 404 "Tuning job not found") /\
   fst (update_tuning_job_status id sb w) = inl (HTTPError 404 "Tuning job not found") /\
   db (snd (update_tuning_job_status id sb w)) = db w).
Proof.
  intros Hdb Hf Hid. split; [|intros H; split; [|split]].
  - intros H. unfold get_project.
    rewrite (bind_ok _ _ _ _ _ (require_db_ok w s Hdb)).
    rewrite (bind_ok _ _ _ _ _ (oid_ok w id o Hid)).
    unfold find_one. rewrite (bind_ok _ _ _ _ _ (store_op_healthy _ _ w s Hdb Hf)).
    simpl. rewrite H. reflexivity.
  - unfold get_tuning_job.
    rewrite (bind_ok _ _ _ _ _ (require_db_ok w s Hdb)).
    rewrite (bind_ok _ _ _ _ _ (oid_ok w id o Hid)).
    unfold find_one. rewrite (bind_ok _ _ _ _ _ (store_op_healthy _ _ w s Hdb Hf)).
    simpl. rewrite H. reflexivity.
  - unfold update_tuning_job_status.
    rewrite (bind_ok _ _ _ _ _ (require_db_ok w s Hdb)).
    rewrite (bind_ok _ _ _ _ _ (oid_ok w id o Hid)).
    unfold update_one. rewrite (bind_ok _ _ _ _ _ (store_op_healthy _ _ w s Hdb Hf)).
    simpl. rewrite (find_first_none_update _ _ _ H). reflexivity.
  - unfold update_tuning_job_status.
    rewrite (bind_ok _ _ _ _ _ (require_db_ok w s Hdb)).
    rewrite (bind_ok _ _ _ _ _ (oid_ok w id o Hid)).
    unfold update_one. rewrite (bind_ok _ _ _ _ _ (store_op_healthy _ _ w s Hdb Hf)).
    simpl. rewrite (find_first_none_update _ _ _ H). simpl. exact (eq_sym Hdb).
Qed.

Lemma missing_record_404_witness :
  (db (world0 (Some empty_store)) = Some empty_store /\
   faults (world0 (Some empty_store)) = [] /\
   oid_of_string "000000000000000000000007" = Some 7) /\
  fst (get_project "000000000000000000000007" (world0 (Some empty_store)))
    = inl (HTTPError 404 "Project not found").
Proof.
  split; [repeat split; vm_compute; reflexivity|].
  refine (proj1 (missing_record_404 (world0 (Some empty_store)) empty_store
                   "000000000000000000000007" 7 (mkStatusBody "x")
                   eq_refl eq_refl _) _); vm_compute; reflexivity.
Defined.

(** Claim C9.  In update-status, the lookup that follows an update reporting
    a match never returns nothing: whatever the world (including store calls
    that raise), the handler never dereferences [None], i.e. never ends in
    the [AttributeError] of [doc.pop] on [None]. *)
Theorem update_status_no_none_deref (w : world) (id : string) (sb : StatusBody) :
  fst (update_tuning_job_status id sb w) <> inl none_pop_error.
Proof.
  unfold update_tuning_job_status.
  destruct (db w) as [s|] eqn:Hdb.
  2:{ unfold require_db, get_db, bind, raise. rewrite Hdb. simpl. discriminate. }
  rewrite (bind_ok _ _ _ _ _ (require_db_ok w s Hdb)).
  destruct (oid_of_string id) as [o|] eqn:Hid.
  2:{ rewrite (bind_err _ _ _ _ _ (oid_err w id Hid)). simpl. discriminate. }
  rewrite (bind_ok _ _ _ _ _ (oid_ok w id o Hid)).
  unfold update_one.
  destruct (store_op_spec (CUpdateOne "tuningjob" o "status" (VStr (body_status sb)))
              (fun s => match update_first (has_id o) (dict_set "status" (VStr (body_status sb)))
                               (get_coll (cols s) "tuningjob") with
                        | None => (0, s)
                        | Some ds => (1, with_cols s (put_coll (cols s) "tuningjob" ds))
                        end) w s Hdb) as [[w1 E] | [w1 [E Hdb1]]].
  { rewrite (bind_err _ _ _ _ _ E). simpl. discriminate. }
  rewrite (bind_ok _ _ _ _ _ E).
  destruct (update_first (has_id o) (dict_set "status" (VStr (body_status sb)))
              (get_coll (cols s) "tuningjob")) as [ds|] eqn:Hu; simpl in Hdb1 |- *.
  2:{ unfold raise. simpl. discriminate. }
  rewrite (bind_ok _ _ _ _ _ (oid_ok w1 id o Hid)).
  unfold find_one.
  destruct (store_op_spec (CFindOne "tuningjob" o)
              (fun s => (find_first (has_id o) (get_coll (cols s) "tuningjob"), s))
              w1 _ Hdb1) as [[w2 E2] | [w2 [E2 _]]].
  { rewrite (bind_err _ _ _ _ _ E2). simpl. discriminate. }
  rewrite (bind_ok _ _ _ _ _ E2). simpl. rewrite get_put_coll.
  destruct (update_first_find (has_id o) _ _ _
              (fun d H => eq_trans (has_id_set_status o _ d) H) Hu) as [d Hd].
  rewrite Hd. unfold pop_id, ret, raise.
  destruct (dict_pop "_id" d) as [[v d']|]; simpl; discriminate.
Qed.

Lemma get_documents_store w s coll filt limit :
  db w = Some s ->
  get_documents coll filt limit w
  = store_op (CFind coll filt limit)
      (fun s => (firstn (Z.to_nat (adapter_limit limit))
                   (filter (matches filt) (get_coll (cols s) coll)), s)) w.
Proof. intros Hdb. unfold get_documents, get_db, bind. rewrite Hdb. reflexivity. Qed.

Lemma get_documents_log w s coll filt limit :
  db w = Some s ->
  log (snd (get_documents coll filt limit w)) = (log w ++ [CFind coll filt limit])%list.
Proof.
  intros Hdb. unfold get_documents, get_db, bind. rewrite Hdb. cbv beta iota.
  unfold store_op. rewrite Hdb.
  destruct (faults w) as [|[|] fs]; reflexivity.
Qed.

Lemma list_projects_log w s limit :
  db w = Some s ->
  log (snd (list_projects limit w)) = (log w ++ [CFind "project" [] (list_limit limit)])%list.
Proof.
  intros Hdb. unfold list_projects.
  rewrite (bind_ok _ _ _ _ _ (require_db_ok w s Hdb)).
  rewrite <- (get_documents_log w s "project" [] (list_limit limit) Hdb).
  unfold bind. destruct (get_documents "project" [] (list_limit limit) w) as [[e|a] w'];
    reflexivity.
Qed.

Lemma list_tuning_jobs_log w s limit p :
  db w = Some s ->
  log (snd (list_tuning_jobs limit p w))
  = (log w ++ [CFind "tuningjob" (project_filter p) (list_limit limit)])%list.
Proof.
  intros Hdb. unfold list_tuning_jobs.
  rewrite (bind_ok _ _ _ _ _ (require_db_ok w s Hdb)).
  rewrite <- (get_documents_log w s "tuningjob" (project_filter p) (list_limit limit) Hdb).
  unfold bind.
  destruct (get_documents "tuningjob" (project_filter p) (list_limit limit) w)
    as [[e|a] w']; reflexivity.
Qed.

(** What [main.py] itself hands the adapter: the limit a list request
    passes to the store query is [min(limit or 50, 200)], never above 200,
    50 when the parameter is omitted (its default) or 0, and the parameter
    itself otherwise, so a negative limit reaches the adapter unchanged. *)
Theorem list_limit_passed (w : world) (s : store) (limit : option Z)
    (p : option string) :
  db w = Some s ->
  log (snd (list_projects limit w)) = (log w ++ [CFind "project" [] (list_limit limit)])%list /\
  log (snd (list_tuning_jobs limit p w))
    = (log w ++ [CFind "tuningjob" (project_filter p) (list_limit limit)])%list /\
  list_limit limit <= 200 /\
  (limit = None \/ limit = Some 0 -> list_limit limit = 50) /\
  (forall z, limit = Some z -> z <> 0 -> list_limit limit = Z.min z 200) /\
  serve (ListProjects QOmitted) w = list_projects (Some 50) w /\
  list_limit (Some 50) = 50.
Proof.
  intros Hdb. split; [|split; [|split; [|split; [|split; [|split]]]]].
  - exact (list_projects_log w s limit Hdb).
  - exact (list_tuning_jobs_log w s limit p Hdb).
  - unfold list_limit. lia.
  - intros [-> | ->]; reflexivity.
  - intros z -> Hz. unfold list_limit, or_50.
    destruct (Z.eqb_spec z 0); [contradiction | reflexivity].
  - reflexivity.
  - reflexivity.
Qed.

Lemma list_limit_passed_witness :
  db (world0 (Some empty_store)) = Some empty_store /\
  log (snd (list_projects (Some (-5)) (world0 (Some empty_store))))
    = [CFind "project" [] (-5)].
Proof.
  split; [reflexivity|].
  exact (proj1 (list_limit_passed (world0 (Some empty_store)) empty_store
                  (Some (-5)) None eq_refl)).
Defined.

(** The spec's effective limit: the [limit] parameter clamped to at most
    200, and 50 when it is unspecified or non-positive. *)
Definition spec_limit (limit : option Z) : Z :=
  match limit with
  | None => 50
  | Some z => if z <=? 0 then 50 else Z.min z 200
  end.

(** A request's [limit]: omitted, or the integer given. *)
Definition limit_arg (limit : option Z) : int_param :=
  match limit with None => QOmitted | Some z => QInt z end.

(** A list response over the records the store query returns. *)
Definition listing (ds : list doc) : value :=
  VObj [("items", VList (map (fun d => VObj (rename_id d)) ds))].

Lemma adapter_list_limit (limit : option Z) :
  adapter_limit (list_limit (match limit with Some z => Some z | None => Some 50 end))
  = spec_limit limit.
Proof.
  destruct limit as [z|]; [|reflexivity].
  unfold adapter_limit, list_limit, or_50, spec_limit.
  destruct (Z.eqb_spec z 0) as [->|Hz]; [reflexivity|].
  destruct (Z.leb_spec z 0); destruct (Z.leb_spec (Z.min z 200) 0); lia.
Qed.

Lemma filter_matches_nil (ds : list doc) : filter (matches []) ds = ds.
Proof. induction ds as [|d ds IH]; simpl; [reflexivity | rewrite IH; reflexivity]. Qed.

(** Claim C2.  With the store available and answering, a list request
    (projects, or tuning jobs with any [project_id]) with the [limit]
    omitted or given as an integer returns the first [n] records of the
    query, where [n] is the spec's effective limit: at most 200, and 50
    when the limit is omitted or non-positive.  [main.py] passes a
    non-positive limit other than 0 on unchanged; the adapter clamps it. *)
Theorem list_limit_clamped (w : world) (s : store) (limit : option Z)
    (p : option string) :
  db w = Some s -> faults w = [] ->
  fst (serve (ListProjects (limit_arg limit)) w)
    = inr (listing (firstn (Z.to_nat (spec_limit limit)) (get_coll (cols s) "project"))) /\
  fst (serve (ListTuningJobs (limit_arg limit) p) w)
    = inr (listing (firstn (Z.to_nat (spec_limit limit))
                     (filter (matches (project_filter p)) (get_coll (cols s) "tuningjob")))).
Proof.
  intros Hdb Hf.
  assert (Hl : forall k : option Z -> M value,
             with_limit (limit_arg limit) k
             = k (match limit with Some z => Some z | None => Some 50 end))
    by (destruct limit; reflexivity).
  simpl serve. rewrite !Hl. split.
  - unfold list_projects.
    rewrite (bind_ok _ _ _ _ _ (require_db_ok w s Hdb)). cbv beta.
    rewrite (bind_ok _ _ _ _ _ (eq_trans (get_documents_store w s _ _ _ Hdb)
                                         (store_op_healthy _ _ w s Hdb Hf))).
    simpl fst. rewrite adapter_list_limit, filter_matches_nil. reflexivity.
  - unfold list_tuning_jobs.
    rewrite (bind_ok _ _ _ _ _ (require_db_ok w s Hdb)). cbv beta zeta.
    rewrite (bind_ok _ _ _ _ _ (eq_trans (get_documents_store w s _ _ _ Hdb)
                                         (store_op_healthy _ _ w s Hdb Hf))).
    simpl fst. rewrite adapter_list_limit. reflexivity.
Qed.

Lemma list_limit_clamped_witness :
  (db (world0 (Some empty_store)) = Some empty_store /\
   faults (world0 (Some empty_store)) = []) /\
  fst (serve (ListProjects (QInt (-5))) (world0 (Some empty_store)))
    = inr (listing (firstn (Z.to_nat (spec_limit (Some (-5))))
                     (get_coll (cols empty_store) "project"))) /\
  Z.to_nat (spec_limit (Some (-5))) = 50%nat.
Proof.
  split; [split; reflexivity|]. split; [|reflexivity].
  exact (proj1 (list_limit_clamped (world0 (Some empty_store)) empty_store
                  (Some (-5)) None eq_refl eq_refl)).
Defined.

(** *** Filtering by [project_id] *)

Lemma dict_get_pop_other k k' v d d' :
  dict_pop k d = Some (v, d') -> String.eqb k' k = false ->
  dict_get k' d' = dict_get k' d.
Proof.
  intros Hp Hk. revert d' Hp.
  induction d as [|[k0 v0] d IH]; simpl; intros d' Hp; [discriminate|].
  destruct (String.eqb k k0) eqn:E.
  - inversion Hp; subst. apply String.eqb_eq in E. subst k0. rewrite Hk. reflexivity.
  - destruct (dict_pop k d) as [[x d'']|] eqn:Hq; [|discriminate].
    inversion Hp; subst. simpl.
    destruct (String.eqb k' k0); [reflexivity|]. apply IH. reflexivity.
Qed.

Lemma rename_id_project_id d :
  dict_get "project_id" (rename_id d) = dict_get "project_id" d.
Proof.
  unfold rename_id. destruct (dict_pop "_id" d) as [[v d']|] eqn:Hp; [|reflexivity].
  rewrite dict_get_set_other by reflexivity.
  apply (dict_get_pop_other _ _ _ _ _ Hp). reflexivity.
Qed.

Lemma in_firstn {A} n (l : list A) x : In x (firstn n l) -> In x l.
Proof.
  intros H. rewrite <- (firstn_skipn n l). apply in_or_app. left. exact H.
Qed.

Lemma matches_project_id p d :
  matches [("project_id", p)] d = true -> dict_get "project_id" d = Some (VStr p).
Proof.
  unfold matches. simpl. rewrite andb_true_r.
  destruct (dict_get "project_id" d) as [[]|]; try discriminate.
  intros H. apply String.eqb_eq in H. subst. reflexivity.
Qed.

(** Claim C8 (as amended).  A tuning-job list request with a non-empty
    [project_id] returns only records whose stored [project_id] is exactly
    that string, so records of any other project are left out; an empty
    [project_id] applies no filter: the request is answered as one without
    it. *)
Theorem list_tuning_jobs_filtered (w : world) (limit : int_param) (p : string) :
  (p <> "" -> forall items,
   fst (serve (ListTuningJobs limit (Some p)) w) = inr (VObj [("items", VList items)]) ->
   Forall (fun it => exists f, it = VObj f /\ dict_get "project_id" f = Some (VStr p)) items) /\
  serve (ListTuningJobs limit (Some "")) w = serve (ListTuningJobs limit None) w.
Proof.
  split; [|reflexivity].
  intros Hp items.
  assert (Hgen : forall lim,
    fst (list_tuning_jobs lim (Some p) w) = inr (VObj [("items", VList items)]) ->
    Forall (fun it => exists f, it = VObj f /\ dict_get "project_id" f = Some (VStr p))
      items).
  { intros lim. unfold list_tuning_jobs.
    destruct (db w) as [s|] eqn:Hdb.
    2:{ unfold require_db, get_db, bind, raise. rewrite Hdb. simpl. discriminate. }
    rewrite (bind_ok _ _ _ _ _ (require_db_ok w s Hdb)).
    unfold project_filter.
    destruct (String.eqb_spec p "") as [|_]; [contradiction|].
    cbv zeta. set (n := list_limit lim).
    destruct (store_op_spec (CFind "tuningjob" [("project_id", p)] n)
      (fun s => (firstn (Z.to_nat (adapter_limit n))
                   (filter (matches [("project_id", p)]) (get_coll (cols s) "tuningjob")), s))
      w s Hdb) as [[w1 E] | [w1 [E _]]];
      rewrite <- (get_documents_store w s _ _ _ Hdb) in E.
    { rewrite (bind_err _ _ _ _ _ E). discriminate. }
    rewrite (bind_ok _ _ _ _ _ E). simpl. intros H. inversion H; subst items. clear H.
    apply Forall_map. apply Forall_forall. intros d Hin.
    exists (rename_id d). split; [reflexivity|].
    rewrite rename_id_project_id.
    apply in_firstn, filter_In in Hin. apply matches_project_id. apply Hin. }
  destruct limit as [|z|]; simpl; [apply Hgen | apply Hgen | discriminate].
Qed.

Definition two_jobs_world : world :=
  world0 (Some (mkStore
    [("tuningjob", [[("_id", VOid 1); ("project_id", VStr "p1"); ("status", VStr "queued")];
                    [("_id", VOid 2); ("project_id", VStr "p2"); ("status", VStr "queued")]])]
    3 "arcynforge")).

Lemma list_tuning_jobs_filtered_witness :
  "p1" <> "" /\
  fst (serve (ListTuningJobs QOmitted (Some "p1")) two_jobs_world)
  = inr (VObj [("items", VList [VObj [("project_id", VStr "p1"); ("status", VStr "queued");
                                      ("id", VStr "000000000000000000000001")]])]) /\
  Forall (fun it => exists f, it = VObj f /\ dict_get "project_id" f = Some (VStr "p1"))
    [VObj [("project_id", VStr "p1"); ("status", VStr "queued");
           ("id", VStr "000000000000000000000001")]].
Proof.
  split; [discriminate|]. split; [vm_compute; reflexivity|].
  apply (proj1 (list_tuning_jobs_filtered two_jobs_world QOmitted "p1"));
    [discriminate | vm_compute; reflexivity].
Defined.

(** Claim C8 fails as stated for an empty [project_id] ([?project_id=]):
    the request supplies the parameter, yet no filter is applied and the
    jobs of projects p1 and p2 are both returned, neither with
    [project_id] equal to the empty string. *)
Lemma list_tuning_jobs_filtered_counterexample :
  fst (serve (ListTuningJobs QOmitted (Some "")) two_jobs_world)
  = inr (VObj [("items", VList [VObj [("project_id", VStr "p1"); ("status", VStr "queued");
                                      ("id", VStr "000000000000000000000001")];
                                VObj [("project_id", VStr "p2"); ("status", VStr "queued");
                                      ("id", VStr "000000000000000000000002")]])]).
Proof. vm_compute. reflexivity. Qed.

(** *** ObjectId round trip: [ObjectId(str(o)) == o] *)

Lemma hex_val_digit d : 0 <= d < 16 -> hex_val (hex_digit d) = Some d.
Proof.
  intros Hd.
  assert (d = 0 \/ d = 1 \/ d = 2 \/ d = 3 \/ d = 4 \/ d = 5 \/ d = 6 \/ d = 7 \/
          d = 8 \/ d = 9 \/ d = 10 \/ d = 11 \/ d = 12 \/ d = 13 \/ d = 14 \/ d = 15)
    as Hc by lia.
  repeat destruct Hc as [-> | Hc]; try reflexivity; subst; reflexivity.
Qed.

Lemma hex_parse_snoc l c :
  hex_parse (l ++ [c]) =
  match hex_parse l, hex_val c with
  | Some a, Some d => Some (a * 16 + d)
  | _, _ => None
  end.
Proof. unfold hex_parse. rewrite fold_left_app. reflexivity. Qed.

Lemma hex_digits_length k n : List.length (hex_digits k n) = k.
Proof.
  revert n. induction k as [|k IH]; intros n; simpl; [reflexivity|].
  rewrite length_app, IH. simpl. apply PeanoNat.Nat.add_1_r.
Qed.

Lemma hex_parse_digits k n :
  0 <= n -> hex_parse (hex_digits k n) = Some (n mod 16 ^ Z.of_nat k).
Proof.
  revert n. induction k as [|k IH]; intros n Hn.
  - simpl. rewrite Z.mod_1_r. reflexivity.
  - simpl hex_digits. rewrite hex_parse_snoc.
    rewrite IH by (apply Z.div_pos; lia).
    rewrite hex_val_digit by (apply Z.mod_pos_bound; lia).
    f_equal.
    rewrite Nat2Z.inj_succ, Z.pow_succ_r by lia.
    rewrite Z.rem_mul_r by (try apply Z.pow_pos_nonneg; lia).
    lia.
Qed.

Lemma in_hex_digits k n c :
  In c (hex_digits k n) -> exists d, 0 <= d < 16 /\ c = hex_digit d.
Proof.
  revert n. induction k as [|k IH]; intros n H; simpl in H; [contradiction|].
  apply in_app_or in H. destruct H as [H | [H | []]].
  - exact (IH _ H).
  - exists (n mod 16). split; [apply Z.mod_pos_bound; lia | symmetry; exact H].
Qed.

Lemma is_space_hex_digit d : 0 <= d < 16 -> is_space (hex_digit d) = false.
Proof.
  intros Hd.
  assert (d = 0 \/ d = 1 \/ d = 2 \/ d = 3 \/ d = 4 \/ d = 5 \/ d = 6 \/ d = 7 \/
          d = 8 \/ d = 9 \/ d = 10 \/ d = 11 \/ d = 12 \/ d = 13 \/ d = 14 \/ d = 15)
    as Hc by lia.
  repeat destruct Hc as [-> | Hc]; try reflexivity; subst; reflexivity.
Qed.

(** On pairs of hexadecimal digits, [bytes.fromhex] reads the same number
    as the digits, two at a time. *)
Lemma fromhex_hex n : forall l acc,
  (List.length l <= n)%nat -> Nat.even (List.length l) = true ->
  (forall c, In c l -> is_space c = false /\ exists d, hex_val c = Some d) ->
  exists bs, fromhex l = Some bs /\ (2 * List.length bs = List.length l)%nat /\
    fold_left (fun acc c =>
                 match acc, hex_val c with
                 | Some a, Some d => Some (a * 16 + d)
                 | _, _ => None
                 end) l (Some acc)
    = Some (fold_left (fun a b => a * 256 + b) bs acc).
Proof.
  induction n as [|n IH]; intros l acc Hlen Hev Hall.
  - destruct l; [|simpl in Hlen; lia]. exists []. auto.
  - destruct l as [|c1 [|c2 r]].
    + exists []. auto.
    + discriminate.
    + destruct (Hall c1 (or_introl eq_refl)) as [Hs1 [t Ht]].
      destruct (Hall c2 (or_intror (or_introl eq_refl))) as [_ [b Hb]].
      destruct (IH r ((acc * 16 + t) * 16 + b)) as [bs [Er [Lr Fr]]].
      * simpl in Hlen. lia.
      * exact Hev.
      * intros c Hc. apply Hall. right. right. exact Hc.
      * exists ((t * 16 + b) :: bs). split; [|split].
        -- simpl. rewrite Hs1, Ht, Hb, Er. reflexivity.
        -- simpl. simpl in Lr. lia.
        -- simpl. rewrite Ht, Hb, Fr. f_equal.
           replace (acc * 256 + (t * 16 + b)) with ((acc * 16 + t) * 16 + b) by lia.
           reflexivity.
Qed.

Lemma oid_roundtrip o :
  0 <= o < 16 ^ 24 -> oid_of_string (oid_str o) = Some o.
Proof.
  intros Ho. unfold oid_of_string, oid_str.
  rewrite list_ascii_of_string_of_list_ascii, hex_digits_length. simpl Nat.eqb.
  cbv iota.
  destruct (fromhex_hex 24 (hex_digits 24 o) 0) as [bs [E [L F]]].
  - rewrite hex_digits_length. lia.
  - rewrite hex_digits_length. reflexivity.
  - intros c Hc. destruct (in_hex_digits _ _ _ Hc) as [d [Hd ->]].
    split; [apply is_space_hex_digit; exact Hd|].
    exists d. apply hex_val_digit. exact Hd.
  - rewrite E. simpl option_map. f_equal.
    pose proof (hex_parse_digits 24 o (proj1 Ho)) as P.
    unfold hex_parse in P. rewrite F in P. injection P as P.
    rewrite hex_digits_length in L.
    assert (Lb : List.length bs = 12%nat) by lia.
    unfold oid_of_bytes. rewrite P, Lb, Z.mod_small by exact Ho.
    simpl. lia.
Qed.

Lemma oid_str_no_space o c :
  In c (list_ascii_of_string (oid_str o)) -> is_space c = false.
Proof.
  unfold oid_str. rewrite list_ascii_of_string_of_list_ascii.
  intros Hc. destruct (in_hex_digits _ _ _ Hc) as [d [Hd ->]].
  apply is_space_hex_digit. exact Hd.
Qed.

(** Claim C5 fails as stated: [ObjectId(str)] accepts a 24-character string
    whenever [bytes.fromhex] does, and [bytes.fromhex] skips ASCII whitespace
    between the hexadecimal pairs.  The string below is no identifier the
    store hands out, yet it is accepted, the store is queried, and the
    answer is 404, not 400. *)
Lemma get_malformed_id_400_counterexample :
  oid_of_string "00 00 00 00 00 00 00 00 " = Some (16 ^ 24 * 4) /\
  (forall o, oid_str o <> "00 00 00 00 00 00 00 00 ") /\
  fst (serve (GetProject "00 00 00 00 00 00 00 00 ") (world0 (Some empty_store)))
    = inl (HTTPError 404 "Project not found") /\
  log (snd (serve (GetProject "00 00 00 00 00 00 00 00 ") (world0 (Some empty_store))))
    = [CFindOne "project" (16 ^ 24 * 4)].
Proof.
  split; [vm_compute; reflexivity|].
  split; [|split; vm_compute; reflexivity].
  intros o Ho.
  assert (Hsp : is_space " "%char = true) by reflexivity.
  rewrite (oid_str_no_space o " "%char) in Hsp; [discriminate|].
  rewrite Ho. simpl. right. right. left. reflexivity.
Qed.


(** *** Creation *)

(** The store invariant the adapter maintains: every stored record has an
    ObjectId below the next one to be assigned, itself below [16^24]. *)
Definition store_wf (s : store) : Prop :=
  0 <= next_oid s < 16 ^ 24 /\
  forall c ds d, In (c, ds) (cols s) -> In d ds ->
    exists n, dict_get "_id" d = Some (VOid n) /\ n < next_oid s.

Lemma in_get_coll cs n d : In d (get_coll cs n) -> exists ds, In (n, ds) cs /\ In d ds.
Proof.
  induction cs as [|[n' ds'] cs IH]; simpl; [contradiction|].
  destruct (String.eqb_spec n n') as [->|_]; intros H.
  - exists ds'. auto.
  - destruct (IH H) as [ds [H1 H2]]. exists ds. auto.
Qed.

Lemma store_wf_fresh s coll d :
  store_wf s -> In d (get_coll (cols s) coll) -> has_id (next_oid s) d = false.
Proof.
  intros [_ Hall] Hin. destruct (in_get_coll _ _ _ Hin) as [ds [H1 H2]].
  destruct (Hall _ _ _ H1 H2) as [n [Hn Hlt]].
  unfold has_id. rewrite Hn. apply Z.eqb_neq. lia.
Qed.

Lemma find_first_snoc (p : doc -> bool) l x :
  (forall d, In d l -> p d = false) -> p x = true -> find_first p (l ++ [x]) = Some x.
Proof.
  intros Hl Hx. induction l as [|d l IH]; simpl.
  - rewrite Hx. reflexivity.
  - rewrite (Hl d (or_introl eq_refl)). apply IH. intros d' Hd'. apply Hl. right. exact Hd'.
Qed.

Lemma dict_set_absent k v d : dict_get k d = None -> dict_set k v d = (d ++ [(k, v)])%list.
Proof.
  induction d as [|[k' v'] d IH]; simpl; [reflexivity|].
  destruct (String.eqb k k'); [discriminate|]. intros H. rewrite IH by exact H. reflexivity.
Qed.

Lemma create_document_healthy w s coll data :
  db w = Some s -> faults w = [] ->
  create_document coll data w
  = (inr (oid_str (next_oid s)),
     set_db (set_faults (set_log w (log w ++ [CInsertOne coll data])%list) [])
       (Some (mkStore (put_coll (cols s) coll
                         (get_coll (cols s) coll ++ [("_id", VOid (next_oid s)) :: data]))
                      (next_oid s + 1) (db_name s)))).
Proof.
  intros Hdb Hf. unfold create_document, get_db, bind. rewrite Hdb.
  rewrite (store_op_healthy _ _ w s Hdb Hf). reflexivity.
Qed.

(** A tuning job as persisted: a blank status becomes ["queued"]. *)
Definition with_default_status (j : TuningJob) : TuningJob :=
  mkTuningJob (project_id j) (model j) (objective j) (dataset j)
    (if String.eqb (status j) "" then "queued" else status j) (params j).

Lemma create_tuning_job_data j :
  (let data0 := tuningjob_dump j in
   if blank (dict_get "status" data0)
   then dict_set "status" (VStr "queued") data0 else data0)
  = tuningjob_dump (with_default_status j).
Proof.
  unfold with_default_status, tuningjob_dump. simpl.
  destruct (status j) as [|c s0]; reflexivity.
Qed.

(** Claim C7.  With the store available and answering, creating a tuning
    job persists its dump with a blank status replaced by ["queued"], answers
    exactly the new identifier and that persisted status, and schedules the
    lifecycle task for the new identifier. *)
Theorem create_tuning_job_status (w : world) (s : store) (job : TuningJob) :
  db w = Some s -> faults w = [] ->
  exists w' s' data,
    create_tuning_job job w
      = (inr (VObj [("id", VStr (oid_str (next_oid s)));
                    ("status", VStr (status (with_default_status job)))]), w') /\
    db w' = Some s' /\
    get_coll (cols s') "tuningjob"
      = (get_coll (cols s) "tuningjob" ++ [("_id", VOid (next_oid s)) :: data])%list /\
    dict_get "status" data = Some (VStr (status (with_default_status job))) /\
    tasks w' = (tasks w ++ [oid_str (next_oid s)])%list /\
    (status job = "" -> status (with_default_status job) = "queued").
Proof.
  intros Hdb Hf. unfold create_tuning_job.
  rewrite (bind_ok _ _ _ _ _ (require_db_ok w s Hdb)).
  rewrite create_tuning_job_data.
  rewrite (bind_ok _ _ _ _ _ (create_document_healthy w s _ _ Hdb Hf)).
  do 3 eexists. split; [reflexivity|].
  split; [reflexivity|].
  split; [simpl; rewrite get_put_coll; reflexivity|].
  split; [reflexivity|].
  split; [reflexivity|].
  intros Hs. unfold with_default_status. simpl. rewrite Hs. reflexivity.
Qed.

Lemma create_tuning_job_status_witness :
  (db (world0 (Some empty_store)) = Some empty_store /\
   faults (world0 (Some empty_store)) = []) /\
  exists w' s' data,
    create_tuning_job (mkTuningJob None "arcyn-prime" "acc" None "" [])
      (world0 (Some empty_store))
      = (inr (VObj [("id", VStr (oid_str 1)); ("status", VStr "queued")]), w') /\
    db w' = Some s' /\
    get_coll (cols s') "tuningjob" = [[("_id", VOid 1)] ++ data]%list /\
    dict_get "status" data = Some (VStr "queued") /\
    tasks w' = [oid_str 1] /\ ("" = "" -> "queued" = "queued").
Proof.
  split; [split; reflexivity|].
  exact (create_tuning_job_status (world0 (Some empty_store)) empty_store
           (mkTuningJob None "arcyn-prime" "acc" None "" []) eq_refl eq_refl).
Defined.


Lemma get_tuning_job_found w s id o d :
  db w = Some s -> faults w = [] -> oid_of_string id = Some o ->
  find_first (has_id o) (get_coll (cols s) "tuningjob") = Some d -> d <> [] ->
  fst (get_tuning_job id w) = fst (pop_id (Some d) w).
Proof.
  intros Hdb Hf Hid Hd Hne. unfold get_tuning_job.
  rewrite (bind_ok _ _ _ _ _ (require_db_ok w s Hdb)).
  rewrite (bind_ok _ _ _ _ _ (oid_ok w id o Hid)).
  unfold find_one. rewrite (bind_ok _ _ _ _ _ (store_op_healthy _ _ w s Hdb Hf)).
  simpl fst at 2. simpl snd. rewrite Hd.
  destruct d as [|kv d]; [contradiction|]. cbn [falsy_doc fst].
  unfold pop_id, ret, raise. destruct (dict_pop "_id" (kv :: d)) as [[v d']|]; reflexivity.
Qed.

Definition new_store (s : store) (coll : string) (data : doc) : store :=
  mkStore (put_coll (cols s) coll
             (get_coll (cols s) coll ++ [("_id", VOid (next_oid s)) :: data]))
          (next_oid s + 1) (db_name s).

Lemma find_inserted s coll data :
  store_wf s ->
  find_first (has_id (next_oid s)) (get_coll (cols (new_store s coll data)) coll)
  = Some (("_id", VOid (next_oid s)) :: data).
Proof.
  intros Hwf. unfold new_store. simpl cols. rewrite get_put_coll.
  apply find_first_snoc.
  - intros d Hd. exact (store_wf_fresh s coll d Hwf Hd).
  - unfold has_id. simpl. apply Z.eqb_refl.
Qed.

Lemma empty_store_wf : store_wf empty_store.
Proof.
  split; [simpl; lia|]. intros c ds d H. destruct H.
Qed.

(** *** The lifecycle task *)

(** One update call: it is logged, consumes one store outcome, keeps the
    store available, and raises exactly when that outcome is a fault. *)
Lemma update_one_spec coll o field v w s :
  db w = Some s ->
  let (r, w') := update_one coll o field v w in
  log w' = (log w ++ [CUpdateOne coll o field v])%list /\
  faults w' = tl (faults w) /\
  (exists s', db w' = Some s') /\
  ((r = inl store_error /\ hd false (faults w) = true) \/
   ((exists n, r = inr n) /\ hd false (faults w) = false)).
Proof.
  intros Hdb. unfold update_one, store_op. rewrite Hdb.
  destruct (faults w) as [|[|] fs]; simpl.
  - destruct (update_first _ _ _); simpl; repeat split; eauto.
  - repeat split; eauto.
  - destruct (update_first _ _ _); simpl; repeat split; eauto.
Qed.

(** Without a store handle the update raises before any call is made. *)
Lemma update_one_no_db coll o field v w :
  db w = None -> exists e, update_one coll o field v w = (inl e, w).
Proof. intros Hdb. unfold update_one, store_op. rewrite Hdb. eauto. Qed.

Definition status_write (o : oid) (v : string) : call :=
  CUpdateOne "tuningjob" o "status" (VStr v).

Ltac step_update H :=
  cbv beta;
  match goal with
  | |- context [bind (update_one ?c ?o ?f ?v) ?k ?w] =>
      let R := fresh "R" in let E := fresh "E" in
      let L := fresh "L" in let F := fresh "F" in let D := fresh "D" in
      let s' := fresh "s" in
      pose proof (update_one_spec c o f v w _ H) as R;
      destruct (update_one c o f v w) as [[? | ?] ?] eqn:E;
      [rewrite (bind_err _ _ _ _ _ E) | rewrite (bind_ok _ _ _ _ _ E)];
      destruct R as [L [F [[s' D] R]]]
  end.

Ltac log_chain :=
  repeat match goal with
         | H : log ?x = _ |- context [log ?x] => rewrite H
         end;
  unfold status_write; rewrite <- ?app_assoc; reflexivity.

Lemma progress_calls (w : world) (job_id : string) :
  fst (_progress job_id w) = inr tt /\
  exists o ws,
    log (snd (_progress job_id w)) = (log w ++ map (status_write o) ws)%list /\
    ((ws = [] /\ (db w = None \/ oid_of_string job_id = None)) \/
     (db w <> None /\ oid_of_string job_id = Some o /\
      ((ws = ["running"; "completed"] /\
        hd false (faults w) = false /\ hd false (tl (faults w)) = false) \/
       (ws = ["running"; "failed"] /\ hd false (faults w) = true) \/
       (ws = ["running"; "completed"; "failed"] /\
        hd false (faults w) = false /\ hd false (tl (faults w)) = true)))).
Proof.
  unfold _progress, try_except.
  destruct (oid_of_string job_id) as [o|] eqn:Hid.
  2:{ rewrite (bind_err _ _ _ _ _ (oid_err w job_id Hid)).
      rewrite (bind_err _ _ _ _ _ (oid_err w job_id Hid)).
      split; [reflexivity|]. exists 0, []. simpl. rewrite app_nil_r.
      split; [reflexivity|]. left. auto. }
  rewrite (bind_ok _ _ _ _ _ (oid_ok w job_id o Hid)).
  destruct (db w) as [s|] eqn:Hdb.
  2:{ destruct (update_one_no_db "tuningjob" o "status" (VStr "running") w Hdb) as [e E].
      rewrite (bind_err _ _ _ _ _ E).
      rewrite (bind_ok _ _ _ _ _ (oid_ok w job_id o Hid)).
      destruct (update_one_no_db "tuningjob" o "status" (VStr "failed") w Hdb) as [e' E'].
      rewrite (bind_err _ _ _ _ _ E').
      split; [reflexivity|]. exists o, []. simpl. rewrite app_nil_r.
      split; [reflexivity|]. left. auto. }
  step_update Hdb.
  - (* the running write raised: one attempt to write failed *)
    assert (Hh : hd false (faults w) = true)
      by (destruct R as [[_ Hh] | [[n Hn] _]]; [exact Hh | discriminate]).
    rewrite (bind_ok _ _ _ _ _ (oid_ok w0 job_id o Hid)).
    step_update D;
      (split; [reflexivity|]; exists o, ["running"; "failed"];
       split; [simpl; log_chain|]);
      (right; split; [discriminate | split; [reflexivity | right; left; auto]]).
  - (* the running write succeeded *)
    assert (Hh : hd false (faults w) = false)
      by (destruct R as [[Hn _] | [_ Hh]]; [discriminate | exact Hh]).
    unfold sleep. rewrite (bind_ok _ _ _ _ _ (eq_refl : ret tt w0 = (inr tt, w0))).
    rewrite (bind_ok _ _ _ _ _ (oid_ok w0 job_id o Hid)).
    step_update D.
    + (* the completed write raised: one attempt to write failed *)
      assert (Hh' : hd false (tl (faults w)) = true)
        by (rewrite <- F; destruct R0 as [[_ Hh'] | [[n Hn] _]]; [exact Hh' | discriminate]).
      rewrite (bind_ok _ _ _ _ _ (oid_ok w1 job_id o Hid)).
      step_update D0;
        (split; [reflexivity|]; exists o, ["running"; "completed"; "failed"];
         split; [simpl; log_chain|]);
        (right; split; [discriminate | split; [reflexivity | right; right; auto]]).
    + assert (Hh' : hd false (tl (faults w)) = false)
        by (rewrite <- F; destruct R0 as [[Hn _] | [_ Hh']]; [discriminate | exact Hh']).
      split; [reflexivity|]. exists o, ["running"; "completed"].
      split; [simpl; log_chain|].
      right; split; [discriminate | split; [reflexivity | left; auto]].
Qed.

Lemma update_first_found (p : doc -> bool) f ds d :
  (forall d', p (f d') = p d') -> find_first p ds = Some d ->
  exists ds', update_first p f ds = Some ds' /\ find_first p ds' = Some (f d).
Proof.
  intros Hpf. induction ds as [|d0 ds IH]; simpl; [discriminate|].
  destruct (p d0) eqn:Hp; intros H.
  - inversion H; subst. exists (f d :: ds). simpl. rewrite Hpf, Hp. auto.
  - destruct (IH H) as [ds' [Hu Hf]]. rewrite Hu. exists (d0 :: ds'). simpl.
    rewrite Hp. auto.
Qed.

Lemma dict_get_set_same k v d : dict_get k (dict_set k v d) = Some v.
Proof.
  induction d as [|[k' v'] d IH]; simpl.
  - rewrite String.eqb_refl. reflexivity.
  - destruct (String.eqb k k') eqn:E; simpl; rewrite E; [reflexivity | exact IH].
Qed.

Lemma update_one_healthy w s o v d :
  db w = Some s -> faults w = [] ->
  find_first (has_id o) (get_coll (cols s) "tuningjob") = Some d ->
  exists s',
    update_one "tuningjob" o "status" v w
    = (inr 1, set_db (set_faults (set_log w (log w ++ [CUpdateOne "tuningjob" o "status" v])%list) [])
                (Some s')) /\
    find_first (has_id o) (get_coll (cols s') "tuningjob") = Some (dict_set "status" v d).
Proof.
  intros Hdb Hf Hd.
  destruct (update_first_found (has_id o) (dict_set "status" v) _ d
              (has_id_set_status o v) Hd) as [ds' [Hu Hfd]].
  unfold update_one. rewrite (store_op_healthy _ _ w s Hdb Hf). rewrite Hu.
  eexists. split; [reflexivity|]. simpl. rewrite get_put_coll. exact Hfd.
Qed.

Lemma progress_healthy w s job_id o d :
  db w = Some s -> faults w = [] -> oid_of_string job_id = Some o ->
  find_first (has_id o) (get_coll (cols s) "tuningjob") = Some d ->
  stored_status (snd (_progress job_id w)) o = Some (VStr "completed").
Proof.
  intros Hdb Hf Hid Hd. unfold _progress, try_except.
  rewrite (bind_ok _ _ _ _ _ (oid_ok w job_id o Hid)). cbv beta.
  destruct (update_one_healthy w s o (VStr "running") d Hdb Hf Hd) as [s1 [E1 H1]].
  rewrite (bind_ok _ _ _ _ _ E1). cbv beta. unfold sleep.
  rewrite (bind_ok _ _ _ _ _ (eq_refl : ret tt _ = (inr tt, _))).
  rewrite (bind_ok _ _ _ _ _ (oid_ok _ job_id o Hid)). cbv beta.
  destruct (update_one_healthy
              (set_db (set_faults (set_log w (log w ++ [CUpdateOne "tuningjob" o "status"
                                                          (VStr "running")])%list) [])
                 (Some s1))
              s1 o (VStr "completed") _ eq_refl eq_refl H1) as [s2 [E2 H2]].
  rewrite (bind_ok _ _ _ _ _ E2). simpl.
  unfold stored_status. simpl. rewrite H2. apply dict_get_set_same.
Qed.

Lemma create_tuning_job_persisted j s w0 :
  store_wf s -> db w0 = Some s -> faults w0 = [] ->
  stored_status (snd (create_tuning_job j w0)) (next_oid s)
    = Some (VStr (status (with_default_status j))) /\
  tasks (snd (create_tuning_job j w0)) = (tasks w0 ++ [oid_str (next_oid s)])%list.
Proof.
  intros Hwf Hdb Hf. unfold create_tuning_job.
  rewrite (bind_ok _ _ _ _ _ (require_db_ok w0 s Hdb)).
  rewrite create_tuning_job_data.
  rewrite (bind_ok _ _ _ _ _ (create_document_healthy w0 s _ _ Hdb Hf)).
  split; [|reflexivity].
  unfold stored_status. simpl db.
  pose proof (find_inserted s "tuningjob" (tuningjob_dump (with_default_status j)) Hwf)
    as Hfi.
  unfold new_store in Hfi. simpl cols. simpl cols in Hfi. cbv iota. simpl cols. rewrite Hfi.
  reflexivity.
Qed.

Lemma with_default_status_kept j :
  status j <> "" -> status (with_default_status j) = status j.
Proof.
  intros Hs. unfold with_default_status. simpl.
  destruct (String.eqb_spec (status j) ""); [contradiction | reflexivity].
Qed.

(** Claim C3 (as amended).  A tuning job's lifecycle starts from the status
    its creation persisted: the payload's status whenever that is not
    blank.  The lifecycle task never raises; the store calls it makes are
    status writes on the job's ObjectId: none when the store handle is
    absent or the identifier malformed; otherwise running then completed
    when both writes succeed, running then failed when the running write
    raises, running then completed then failed when the completed write
    raises.  So a [failed] write is attempted once, only after a failing
    write, and its own failure is discarded; no status outside running,
    completed and failed is ever written.  When the store is available and
    answers, the writes are running then completed and the job's stored
    status ends as completed, whatever status the creation stored. *)
Theorem progress_lifecycle (w : world) (job_id : string) :
  (forall j s w0, store_wf s -> db w0 = Some s -> faults w0 = [] ->
   stored_status (snd (create_tuning_job j w0)) (next_oid s)
     = Some (VStr (status (with_default_status j))) /\
   (status j <> "" -> status (with_default_status j) = status j) /\
   tasks (snd (create_tuning_job j w0)) = (tasks w0 ++ [oid_str (next_oid s)])%list) /\
  fst (_progress job_id w) = inr tt /\
  (exists o ws,
    log (snd (_progress job_id w)) = (log w ++ map (status_write o) ws)%list /\
    ((ws = [] /\ (db w = None \/ oid_of_string job_id = None)) \/
     (db w <> None /\ oid_of_string job_id = Some o /\
      ((ws = ["running"; "completed"] /\
        hd false (faults w) = false /\ hd false (tl (faults w)) = false) \/
       (ws = ["running"; "failed"] /\ hd false (faults w) = true) \/
       (ws = ["running"; "completed"; "failed"] /\
        hd false (faults w) = false /\ hd false (tl (faults w)) = true)))) /\
    (db w <> None -> oid_of_string job_id <> None -> faults w = [] ->
     ws = ["running"; "completed"])) /\
  (forall s o d, db w = Some s -> faults w = [] -> oid_of_string job_id = Some o ->
   find_first (has_id o) (get_coll (cols s) "tuningjob") = Some d ->
   stored_status (snd (_progress job_id w)) o = Some (VStr "completed")).
Proof.
  split.
  { intros j s w0 Hwf Hdb Hf.
    destruct (create_tuning_job_persisted j s w0 Hwf Hdb Hf) as [P T].
    split; [exact P | split; [apply with_default_status_kept | exact T]]. }
  destruct (progress_calls w job_id) as [H1 [o [ws [Hlog Hws]]]].
  split; [exact H1 | split].
  - exists o, ws. split; [exact Hlog | split; [exact Hws|]].
    intros Hdb Hid Hf. rewrite Hf in Hws. simpl in Hws.
    destruct Hws as [[_ [Hd | Hd]] | [_ [_ [[-> _] | [[_ Hh] | [_ [_ Hh]]]]]]];
      congruence.
  - intros s o' d. apply progress_healthy.
Qed.

Lemma progress_lifecycle_witness :
  stored_status (snd (_progress "000000000000000000000001" two_jobs_world)) 1
    = Some (VStr "completed") /\
  stored_status (snd (create_tuning_job (mkTuningJob None "arcyn-prime" "acc" None "running" [])
                        (world0 (Some empty_store)))) 1
    = Some (VStr "running").
Proof.
  split.
  - exact (proj2 (proj2 (proj2 (progress_lifecycle two_jobs_world "000000000000000000000001")))
             _ 1 [("_id", VOid 1); ("project_id", VStr "p1"); ("status", VStr "queued")]
             eq_refl eq_refl eq_refl eq_refl).
  - exact (proj1 (proj1 (progress_lifecycle two_jobs_world "000000000000000000000001")
                    (mkTuningJob None "arcyn-prime" "acc" None "running" [])
                    empty_store (world0 (Some empty_store)) empty_store_wf eq_refl eq_refl)).
Defined.

(** Claim C3 fails as stated: the status a job starts from is the one its
    payload carries, so a job created with status ["completed"] goes
    completed, running, completed and never passes through queued. *)
Lemma progress_lifecycle_counterexample :
  let w := world0 (Some empty_store) in
  let body := VObj [("objective", VStr "acc"); ("status", VStr "completed")] in
  let w1 := snd (serve (CreateTuningJob body) w) in
  stored_status w1 1 = Some (VStr "completed") /\
  tasks w1 = ["000000000000000000000001"] /\
  log (snd (run_next_task w1))
    = (log w1 ++ map (status_write 1) ["running"; "completed"])%list /\
  stored_status (snd (run_next_task w1)) 1 = Some (VStr "completed").
Proof. vm_compute. repeat split. Qed.






(** ** Further properties of the handlers and schemas *)

Lemma list_ascii_length s : List.length (list_ascii_of_string s) = String.length s.
Proof. induction s as [|c s IH]; simpl; congruence. Qed.

(** [_oid] parses back every identifier string the store hands out. *)
Theorem oid_of_str_roundtrip (o : oid) (w : world) :
  0 <= o < 16 ^ 24 -> _oid (oid_str o) w = (inr o, w).
Proof. intros Ho. apply oid_ok. apply oid_roundtrip. exact Ho. Qed.

Lemma oid_of_str_roundtrip_witness :
  0 <= 42 < 16 ^ 24 /\
  _oid (oid_str 42) (world0 None) = (inr 42, world0 None).
Proof. split; [lia|]. apply oid_of_str_roundtrip. lia. Defined.

(** [_oid] rejects with 400 every string whose length is not 24. *)
Theorem oid_wrong_length_400 (s : string) (w : world) :
  String.length s <> 24%nat ->
  _oid s w = (inl (HTTPError 400 "Invalid ID format"), w).
Proof.
  intros Hl. apply oid_err. unfold oid_of_string.
  rewrite list_ascii_length. destruct (Nat.eqb_spec (String.length s) 24);
    [contradiction | reflexivity].
Qed.

Lemma oid_wrong_length_400_witness :
  String.length "12345" <> 24%nat /\
  _oid "12345" (world0 None) = (inl (HTTPError 400 "Invalid ID format"), world0 None).
Proof. split; [discriminate|]. apply oid_wrong_length_400. discriminate. Defined.

(** Update-status with a malformed identifier fails with 400 before any
    store call: the world, store and log included, is unchanged. *)
Theorem update_status_malformed_400 (w : world) (id : string) (sb : StatusBody) :
  db w <> None -> oid_of_string id = None ->
  update_tuning_job_status id sb w = (inl (HTTPError 400 "Invalid ID format"), w).
Proof.
  intros Hdb Hid. destruct (db w) as [s|] eqn:E; [|contradiction].
  unfold update_tuning_job_status.
  rewrite (bind_ok _ _ _ _ _ (require_db_ok w s E)).
  rewrite (bind_err _ _ _ _ _ (oid_err w id Hid)). reflexivity.
Qed.

Lemma update_status_malformed_400_witness :
  (db (world0 (Some empty_store)) <> None /\ oid_of_string "zz" = None) /\
  update_tuning_job_status "zz" (mkStatusBody "running") (world0 (Some empty_store))
  = (inl (HTTPError 400 "Invalid ID format"), world0 (Some empty_store)).
Proof.
  split; [split; [discriminate | reflexivity]|].
  apply update_status_malformed_400; [discriminate | reflexivity].
Defined.

(** A Project payload is validated with the schema's defaults: the name is
    the payload's string, and an absent description, language, framework,
    tags or settings becomes None, "javascript", None, [] or {}. *)
Theorem validate_project_defaults (o : list (string * value)) (p : Project) :
  validate_project (VObj o) = Some p ->
  json_get "name" o = Some (VStr (name p)) /\
  (json_get "description" o = None -> description p = None) /\
  (json_get "language" o = None -> language p = "javascript") /\
  (json_get "framework" o = None -> framework p = None) /\
  (json_get "tags" o = None -> tags p = []) /\
  (json_get "settings" o = None -> settings p = []).
Proof.
  unfold validate_project, v_req_str, v_opt_str, v_str, v_str_list, v_dict.
  destruct (json_get "name" o) as [[]|]; try discriminate.
  destruct (json_get "description" o) as [[]|]; try discriminate;
  destruct (json_get "language" o) as [[]|]; try discriminate;
  destruct (json_get "framework" o) as [[]|]; try discriminate;
  destruct (json_get "tags" o) as [[]|]; try discriminate;
  destruct (json_get "settings" o) as [[]|]; try discriminate;
  try (destruct (all_strs _); [|discriminate]);
  intros H; inversion H; subst; simpl;
  repeat split; intros; discriminate || reflexivity.
Qed.

Lemma validate_project_defaults_witness :
  validate_project (VObj [("name", VStr "forge")])
    = Some (mkProject "forge" None "javascript" None [] []) /\
  language (mkProject "forge" None "javascript" None [] []) = "javascript".
Proof.
  split; [reflexivity|].
  apply (validate_project_defaults [("name", VStr "forge")]); reflexivity.
Defined.

(** A TuningJob payload is validated with the schema's defaults: the
    objective is the payload's string, and an absent project_id, model,
    dataset, status or params becomes None, "arcyn-prime", None, "queued"
    or {}. *)
Theorem validate_tuningjob_defaults (o : list (string * value)) (j : TuningJob) :
  validate_tuningjob (VObj o) = Some j ->
  json_get "objective" o = Some (VStr (objective j)) /\
  (json_get "project_id" o = None -> project_id j = None) /\
  (json_get "model" o = None -> model j = "arcyn-prime") /\
  (json_get "dataset" o = None -> dataset j = None) /\
  (json_get "status" o = None -> status j = "queued") /\
  (json_get "params" o = None -> params j = []).
Proof.
  unfold validate_tuningjob, v_req_str, v_opt_str, v_str, v_dict.
  destruct (json_get "objective" o) as [[]|];
  destruct (json_get "project_id" o) as [[]|]; try discriminate;
  destruct (json_get "model" o) as [[]|]; try discriminate;
  destruct (json_get "dataset" o) as [[]|]; try discriminate;
  destruct (json_get "status" o) as [[]|]; try discriminate;
  destruct (json_get "params" o) as [[]|]; try discriminate;
  intros H; inversion H; subst; simpl;
  repeat split; intros; discriminate || reflexivity.
Qed.

Lemma validate_tuningjob_defaults_witness :
  validate_tuningjob (VObj [("objective", VStr "acc")])
    = Some (mkTuningJob None "arcyn-prime" "acc" None "queued" []) /\
  status (mkTuningJob None "arcyn-prime" "acc" None "queued" []) = "queued".
Proof.
  split; [reflexivity|].
  apply (validate_tuningjob_defaults [("objective", VStr "acc")]); reflexivity.
Defined.

(** A create request whose body lacks the required string field (name for
    a project, objective for a tuning job) is refused with 422 before the
    handler runs: the world is unchanged, whether or not the store is
    available. *)
Theorem create_missing_required_422 (w : world) (o : list (string * value)) :
  ((forall s, json_get "name" o <> Some (VStr s)) ->
   serve (CreateProject (VObj o)) w = (inl validation_error, w)) /\
  ((forall s, json_get "objective" o <> Some (VStr s)) ->
   serve (CreateTuningJob (VObj o)) w = (inl validation_error, w)).
Proof.
  split; intros H; simpl.
  - unfold validate_project, v_req_str.
    destruct (json_get "name" o) as [[]|]; try reflexivity.
    exfalso. exact (H _ eq_refl).
  - unfold validate_tuningjob, v_req_str.
    destruct (json_get "objective" o) as [[]|];
      try (destruct (v_opt_str "project_id" o), (v_str "model" "arcyn-prime" o);
           reflexivity).
    exfalso. exact (H _ eq_refl).
Qed.

Lemma create_missing_required_422_witness :
  serve (CreateProject (VObj [("language", VStr "go")])) (world0 (Some empty_store))
  = (inl validation_error, world0 (Some empty_store)).
Proof.
  apply (proj1 (create_missing_required_422 (world0 (Some empty_store))
                  [("language", VStr "go")])).
  intros s. discriminate.
Defined.

(** *** The store invariant along the handlers *)

Definition wf_world (w : world) : Prop := forall s, db w = Some s -> store_wf s.

Definition preserves {A} (m : M A) : Prop :=
  forall w, wf_world w -> wf_world (snd (m w)).

Lemma preserves_bind {A B} (m : M A) (k : A -> M B) :
  preserves m -> (forall a, preserves (k a)) -> preserves (bind m k).
Proof.
  intros Hm Hk w Hw. unfold bind.
  specialize (Hm w Hw). destruct (m w) as [[e|a] w'] eqn:E; simpl in *.
  - exact Hm.
  - apply Hk. exact Hm.
Qed.

Lemma preserves_try {A} (m : M A) (h : exc -> M A) :
  preserves m -> (forall e, preserves (h e)) -> preserves (try_except m h).
Proof.
  intros Hm Hh w Hw. unfold try_except.
  specialize (Hm w Hw). destruct (m w) as [[e|a] w'] eqn:E; simpl in *.
  - apply Hh. exact Hm.
  - exact Hm.
Qed.

Lemma preserves_ret {A} (a : A) : preserves (ret a).
Proof. intros w Hw. exact Hw. Qed.

Lemma preserves_raise {A} (e : exc) : preserves (@raise A e).
Proof. intros w Hw. exact Hw. Qed.

Lemma preserves_oid id : preserves (_oid id).
Proof. intros w Hw. unfold _oid. destruct (oid_of_string id); exact Hw. Qed.

Lemma preserves_require_db : preserves require_db.
Proof.
  apply preserves_bind; [intros w Hw; exact Hw|].
  intros [|]; [apply preserves_ret | apply preserves_raise].
Qed.

Lemma preserves_store_op {A} c (f : store -> A * store) :
  (forall s, store_wf s -> store_wf (snd (f s))) -> preserves (store_op c f).
Proof.
  intros Hf w Hw s' Hs'. unfold store_op in Hs'.
  destruct (db w) as [s|] eqn:Hdb; [|simpl in Hs'; congruence].
  destruct (faults w) as [|[|] fs]; simpl in Hs'.
  - destruct (f s) as [a s0] eqn:E. simpl in Hs'. inversion Hs'; subst.
    replace s' with (snd (f s)) by (rewrite E; reflexivity). apply Hf, Hw, Hdb.
  - apply Hw. exact Hs'.
  - destruct (f s) as [a s0] eqn:E. simpl in Hs'. inversion Hs'; subst.
    replace s' with (snd (f s)) by (rewrite E; reflexivity). apply Hf, Hw, Hdb.
Qed.

Lemma preserves_find_one coll o : preserves (find_one coll o).
Proof. apply preserves_store_op. intros s H. exact H. Qed.

Lemma in_put_coll cs n ds0 c ds :
  In (c, ds) (put_coll cs n ds0) -> In (c, ds) cs \/ ds = ds0.
Proof.
  induction cs as [|[n' ds'] cs IH]; simpl.
  - intros [H|[]]. inversion H; subst. right. reflexivity.
  - destruct (String.eqb n n'); simpl.
    + intros [H|H]; [inversion H; subst; right; reflexivity | left; right; exact H].
    + intros [H|H]; [left; left; exact H|].
      destruct (IH H) as [H'|H']; [left; right; exact H' | right; exact H'].
Qed.

Lemma in_update_first (p : doc -> bool) f ds ds' d :
  update_first p f ds = Some ds' -> In d ds' -> In d ds \/ exists d0, In d0 ds /\ d = f d0.
Proof.
  revert ds'. induction ds as [|d1 ds IH]; simpl; intros ds' Hu Hin; [discriminate|].
  destruct (p d1).
  - inversion Hu; subst. destruct Hin as [<-|Hin].
    + right. exists d1. auto.
    + left. right. exact Hin.
  - destruct (update_first p f ds) as [l|] eqn:E; simpl in Hu; [|discriminate].
    inversion Hu; subst. destruct Hin as [<-|Hin]; [left; left; reflexivity|].
    destruct (IH l eq_refl Hin) as [H|[d0 [H1 H2]]]; [left; right; exact H|].
    right. exists d0. auto.
Qed.

Lemma update_one_wf coll o field v :
  String.eqb "_id" field = false -> preserves (update_one coll o field v).
Proof.
  intros Hk. apply preserves_store_op. intros s [Hr Hall].
  destruct (update_first _ _ _) as [ds|] eqn:Hu; simpl; [|split; assumption].
  split; [exact Hr|]. simpl. intros c ds1 d Hc Hd.
  destruct (in_put_coll _ _ _ _ _ Hc) as [Hc' | ->]; [exact (Hall _ _ _ Hc' Hd)|].
  destruct (in_update_first _ _ _ _ _ Hu Hd) as [Hd' | [d0 [Hd0 ->]]].
  - destruct (in_get_coll _ _ _ Hd') as [ds2 [H1 H2]]. exact (Hall _ _ _ H1 H2).
  - destruct (in_get_coll _ _ _ Hd0) as [ds2 [H1 H2]].
    rewrite dict_get_set_other by exact Hk. exact (Hall _ _ _ H1 H2).
Qed.

(** The two status writers keep the store invariant (every record's
    ObjectId lies below the next one to be assigned): update-status and the
    lifecycle task only ever rewrite a status field. *)
Theorem status_writers_keep_wf (job_id : string) (sb : StatusBody) (w : world) :
  wf_world w ->
  wf_world (snd (update_tuning_job_status job_id sb w)) /\
  wf_world (snd (_progress job_id w)).
Proof.
  intros Hw. split.
  - revert w Hw. unfold update_tuning_job_status.
    apply preserves_bind; [apply preserves_require_db|]. intros _.
    apply preserves_bind; [apply preserves_oid|]. intros o.
    apply preserves_bind; [apply update_one_wf; reflexivity|]. intros n.
    destruct (Z.eqb n 0); [apply preserves_raise|].
    apply preserves_bind; [apply preserves_oid|]. intros o'.
    apply preserves_bind; [apply preserves_find_one|]. intros d.
    intros w Hw. unfold pop_id. destruct d as [d|]; [|exact Hw].
    destruct (dict_pop "_id" d) as [[v d']|]; exact Hw.
  - revert w Hw. unfold _progress.
    apply preserves_try.
    + apply preserves_bind; [apply preserves_oid|]. intros o.
      apply preserves_bind; [apply update_one_wf; reflexivity|]. intros _.
      apply preserves_bind; [apply preserves_ret|]. intros _.
      apply preserves_bind; [apply preserves_oid|]. intros o'.
      apply preserves_bind; [apply update_one_wf; reflexivity|]. intros _.
      apply preserves_ret.
    + intros _. apply preserves_try; [|intros _; apply preserves_ret].
      apply preserves_bind; [apply preserves_oid|]. intros o.
      apply preserves_bind; [apply update_one_wf; reflexivity|]. intros _.
      apply preserves_ret.
Qed.

Lemma status_writers_keep_wf_witness :
  wf_world (snd (update_tuning_job_status "000000000000000000000001"
                   (mkStatusBody "done") (world0 (Some empty_store)))).
Proof.
  refine (proj1 (status_writers_keep_wf _ _ _ _)).
  intros s Hs. inversion Hs. exact empty_store_wf.
Defined.

Lemma new_store_wf s coll data :
  store_wf s -> next_oid s + 1 < 16 ^ 24 -> store_wf (new_store s coll data).
Proof.
  intros [Hr Hall] Hb. split; [simpl; lia|]. simpl.
  intros c ds d Hc Hd.
  destruct (in_put_coll _ _ _ _ _ Hc) as [Hc' | ->].
  - destruct (Hall _ _ _ Hc' Hd) as [n [Hn Hlt]]. exists n. split; [exact Hn | lia].
  - apply in_app_or in Hd. destruct Hd as [Hd | [<- | []]].
    + destruct (in_get_coll _ _ _ Hd) as [ds2 [H1 H2]].
      destruct (Hall _ _ _ H1 H2) as [n [Hn Hlt]]. exists n. split; [exact Hn | lia].
    + exists (next_oid s). split; [reflexivity | lia].
Qed.

Lemma create_document_wf w s coll data :
  db w = Some s -> store_wf s -> next_oid s + 1 < 16 ^ 24 ->
  wf_world (snd (create_document coll data w)).
Proof.
  intros Hdb Hwf Hb s' Hs'.
  unfold create_document, get_db, bind in Hs'. rewrite Hdb in Hs'.
  unfold store_op in Hs'. rewrite Hdb in Hs'.
  destruct (faults w) as [|[|] fs]; simpl in Hs'.
  - inversion Hs'; subst. apply new_store_wf; assumption.
  - rewrite Hdb in Hs'. inversion Hs'; subst. exact Hwf.
  - inversion Hs'; subst. apply new_store_wf; assumption.
Qed.

Lemma bind_wf_after {A B} (m : M A) (k : A -> M B) w :
  wf_world (snd (m w)) -> (forall a, preserves (k a)) -> wf_world (snd (bind m k w)).
Proof.
  intros Hm Hk. unfold bind. destruct (m w) as [[e|a] w'] eqn:E; simpl in *.
  - exact Hm.
  - apply Hk. exact Hm.
Qed.

(** Creating a project or a tuning job keeps the store invariant, as long as
    the ObjectId space is not exhausted. *)
Theorem creates_keep_wf (w : world) (s : store) (p : Project) (j : TuningJob) :
  db w = Some s -> store_wf s -> next_oid s + 1 < 16 ^ 24 ->
  wf_world (snd (create_project p w)) /\ wf_world (snd (create_tuning_job j w)).
Proof.
  intros Hdb Hwf Hb. split.
  - unfold create_project. rewrite (bind_ok _ _ _ _ _ (require_db_ok w s Hdb)).
    apply bind_wf_after; [apply (create_document_wf w s); assumption|].
    intros a. apply preserves_ret.
  - unfold create_tuning_job. rewrite (bind_ok _ _ _ _ _ (require_db_ok w s Hdb)).
    apply bind_wf_after; [apply (create_document_wf w s); assumption|].
    intros a. apply preserves_bind; [|intros _; apply preserves_ret].
    intros w' Hw'. exact Hw'.
Qed.

Lemma creates_keep_wf_witness :
  wf_world (snd (create_project (mkProject "forge" None "javascript" None [] [])
                   (world0 (Some empty_store)))).
Proof.
  refine (proj1 (creates_keep_wf (world0 (Some empty_store)) empty_store
                   (mkProject "forge" None "javascript" None [] [])
                   (mkTuningJob None "arcyn-prime" "acc" None "queued" [])
                   eq_refl empty_store_wf _)).
  simpl. lia.
Defined.

Lemma create_project_healthy w s p :
  db w = Some s -> faults w = [] ->
  exists w', create_project p w = (inr (VObj [("id", VStr (oid_str (next_oid s)))]), w')
          /\ db w' = Some (new_store s "project" (project_dump p)) /\ faults w' = [].
Proof.
  intros Hdb Hf. unfold create_project.
  rewrite (bind_ok _ _ _ _ _ (require_db_ok w s Hdb)).
  rewrite (bind_ok _ _ _ _ _ (create_document_healthy w s _ _ Hdb Hf)).
  eexists. split; [reflexivity | split; reflexivity].
Qed.

(** Two successive creations answer two different identifiers. *)
Theorem create_ids_distinct (w : world) (s : store) (p1 p2 : Project) :
  db w = Some s -> faults w = [] -> 0 <= next_oid s -> next_oid s + 1 < 16 ^ 24 ->
  exists i1 i2 w1 w2,
    create_project p1 w = (inr (VObj [("id", VStr i1)]), w1) /\
    create_project p2 w1 = (inr (VObj [("id", VStr i2)]), w2) /\
    i1 <> i2.
Proof.
  intros Hdb Hf H0 Hb.
  destruct (create_project_healthy w s p1 Hdb Hf) as (w1 & E1 & Hdb1 & Hf1).
  destruct (create_project_healthy w1 _ p2 Hdb1 Hf1) as (w2 & E2 & _ & _).
  exists (oid_str (next_oid s)), (oid_str (next_oid s + 1)), w1, w2.
  split; [exact E1 | split; [exact E2 |]].
  intros Heq.
  apply (f_equal oid_of_string) in Heq.
  rewrite !oid_roundtrip in Heq by lia. inversion Heq. lia.
Qed.

Lemma create_ids_distinct_witness :
  exists i1 i2 w1 w2,
    create_project (mkProject "a" None "javascript" None [] []) (world0 (Some empty_store))
      = (inr (VObj [("id", VStr i1)]), w1) /\
    create_project (mkProject "b" None "javascript" None [] []) w1
      = (inr (VObj [("id", VStr i2)]), w2) /\
    i1 <> i2.
Proof.
  apply (create_ids_distinct (world0 (Some empty_store)) empty_store);
    [reflexivity | reflexivity | simpl; lia | simpl; lia].
Defined.

(** Get-by-id never changes the store, whatever the identifier and whatever
    the store's calls do. *)
Theorem gets_read_only (w : world) (id : string) :
  db (snd (get_project id w)) = db w /\ db (snd (get_tuning_job id w)) = db w.
Proof.
  assert (Hfind : forall coll o w', db (snd (find_one coll o w')) = db w').
  { intros coll o w'. unfold find_one, store_op.
    destruct (db w') as [s|] eqn:E; [|simpl; exact E].
    destruct (faults w') as [|[|] fs]; simpl; [| exact E | ]; reflexivity. }
  assert (Hpop : forall d w', db (snd (pop_id d w')) = db w').
  { intros [d|] w'; unfold pop_id, raise, ret; [|reflexivity].
    destruct (dict_pop "_id" d) as [[v d']|]; reflexivity. }
  split; [unfold get_project | unfold get_tuning_job];
    (destruct (db w) as [s|] eqn:Hdb;
     [| unfold require_db, get_db, bind, raise; rewrite Hdb; simpl; exact Hdb]);
    rewrite (bind_ok _ _ _ _ _ (require_db_ok w s Hdb));
    (destruct (oid_of_string id) as [o|] eqn:Hid;
     [| rewrite (bind_err _ _ _ _ _ (oid_err w id Hid)); simpl; exact Hdb]);
    rewrite (bind_ok _ _ _ _ _ (oid_ok w id o Hid));
    unfold bind;
    (match goal with |- context [find_one ?c o w] =>
       destruct (find_one c o w) as [[e|d] w'] eqn:E;
       pose proof (Hfind c o w) as H end; rewrite E in H; simpl in H |- *;
     [congruence | destruct (falsy_doc d); simpl; [congruence | rewrite Hpop; congruence]]).
Qed.

Lemma find_first_sat (p : doc -> bool) ds d : find_first p ds = Some d -> p d = true.
Proof.
  induction ds as [|d0 ds IH]; simpl; [discriminate|].
  destruct (p d0) eqn:Hp; [intros H; inversion H; subst; exact Hp | exact IH].
Qed.

Lemma has_id_get o d : has_id o d = true -> dict_get "_id" d = Some (VOid o).
Proof.
  unfold has_id. destruct (dict_get "_id" d) as [[]|]; try discriminate.
  intros H. apply Z.eqb_eq in H. subst. reflexivity.
Qed.

Lemma dict_set_nonempty k v d : dict_set k v d <> [].
Proof.
  destruct d as [|[k' v'] d]; simpl; [discriminate|].
  destruct (String.eqb k k'); discriminate.
Qed.

Lemma dict_pop_of_get k v d : dict_get k d = Some v -> exists d', dict_pop k d = Some (v, d').
Proof.
  induction d as [|[k0 v0] d IH]; simpl; [discriminate|].
  destruct (String.eqb k k0).
  - intros H. inversion H; subst. eauto.
  - intros H. destruct (IH H) as [d' ->]. eauto.
Qed.

(** A status update of a stored tuning job answers the record with the new
    status and the identifier as a string, and a following get-by-id answers
    the same record. *)
Theorem update_status_then_get (w : world) (s : store) (id : string) (o : oid)
    (d : doc) (sb : StatusBody) :
  db w = Some s -> faults w = [] -> oid_of_string id = Some o ->
  find_first (has_id o) (get_coll (cols s) "tuningjob") = Some d ->
  exists r w',
    update_tuning_job_status id sb w = (inr (VObj r), w') /\
    dict_get "status" r = Some (VStr (body_status sb)) /\
    dict_get "id" r = Some (VStr (oid_str o)) /\
    fst (get_tuning_job id w') = inr (VObj r).
Proof.
  intros Hdb Hf Hid Hd.
  destruct (update_one_healthy w s o (VStr (body_status sb)) d Hdb Hf Hd) as [s' [E1 H1]].
  assert (Hget : dict_get "_id" (dict_set "status" (VStr (body_status sb)) d)
                 = Some (VOid o)).
  { apply has_id_get. rewrite has_id_set_status. exact (find_first_sat _ _ _ Hd). }
  destruct (dict_pop_of_get _ _ _ Hget) as [d' Hpop].
  unfold update_tuning_job_status.
  rewrite (bind_ok _ _ _ _ _ (require_db_ok w s Hdb)).
  rewrite (bind_ok _ _ _ _ _ (oid_ok w id o Hid)).
  rewrite (bind_ok _ _ _ _ _ E1). cbv beta.
  change (Z.eqb 1 0) with false. cbv iota.
  rewrite (bind_ok _ _ _ _ _ (oid_ok _ id o Hid)).
  unfold find_one.
  set (w1 := set_db _ (Some s')).
  rewrite (bind_ok _ _ _ _ _ (store_op_healthy _ _ w1 s' eq_refl eq_refl)).
  simpl fst. rewrite H1. unfold pop_id at 1. rewrite Hpop. unfold ret.
  do 2 eexists. split; [reflexivity|].
  split; [|split].
  - rewrite dict_get_set_other by reflexivity.
    rewrite (dict_get_pop_other _ _ _ _ _ Hpop) by reflexivity.
    apply dict_get_set_same.
  - apply dict_get_set_same.
  - match goal with |- fst (get_tuning_job id ?w2) = _ =>
      rewrite (get_tuning_job_found w2 s' id o _ eq_refl eq_refl Hid H1) end.
    + unfold pop_id. rewrite Hpop. reflexivity.
    + apply dict_set_nonempty.
Qed.

Lemma update_status_then_get_witness :
  exists r w',
    update_tuning_job_status (oid_str 1) (mkStatusBody "paused") two_jobs_world
      = (inr (VObj r), w') /\
    dict_get "status" r = Some (VStr (body_status (mkStatusBody "paused"))) /\
    dict_get "id" r = Some (VStr (oid_str 1)) /\
    fst (get_tuning_job (oid_str 1) w') = inr (VObj r).
Proof.
  refine (update_status_then_get two_jobs_world _ (oid_str 1) 1 _ _
            eq_refl eq_refl _ _); vm_compute; reflexivity.
Defined.

(** The test endpoint always answers a JSON object and never changes the
    store; it reports "Connected" exactly when the store handle is present,
    and lists at most ten collections. *)
Theorem test_database_total (w : world) :
  exists r,
    fst (test_database w) = inr (VObj r) /\
    db (snd (test_database w)) = db w /\
    (dict_get "connection_status" r = Some (VStr "Connected") <-> db w <> None) /\
    exists cs, dict_get "collections" r = Some (VList cs) /\ (length cs <= 10)%nat.
Proof.
  unfold test_database, bind, get_db, get_database_url. cbv beta.
  destruct (db w) as [s|] eqn:Hdb.
  - unfold try_except, list_collection_names, store_op, bind, ret.
    rewrite Hdb.
    destruct (faults w) as [|[|] fs]; eexists;
      (split; [reflexivity|]);
      (split; [first [reflexivity | exact Hdb]|]);
      (split; [split; [intros _; discriminate | reflexivity]|]);
      eexists; (split; [reflexivity|]);
      try (simpl; lia);
      rewrite length_map, length_firstn; lia.
  - simpl. eexists. split; [reflexivity|]. split; [exact Hdb|].
    split; [split; [discriminate | intros H; contradiction] |].
    eexists. split; [reflexivity | simpl; lia].
Qed.

(** The background task never raises: every failure, of the identifier or
    of the store, is caught. *)
Theorem progress_never_raises (job_id : string) (w : world) :
  fst (_progress job_id w) = inr tt.
Proof.
  unfold _progress, try_except.
  destruct (bind _ _ w) as [[e|[]] w1]; [|reflexivity].
  destruct (bind _ _ w1) as [[e'|[]] w2]; reflexivity.
Qed.

Lemma update_one_absent w s o field v :
  db w = Some s -> find_first (has_id o) (get_coll (cols s) "tuningjob") = None ->
  exists r w', update_one "tuningjob" o field v w = (r, w') /\ db w' = Some s /\
    (r = inl store_error \/ r = inr 0).
Proof.
  intros Hdb Hn. unfold update_one, store_op. rewrite Hdb.
  rewrite (find_first_none_update _ (dict_set field v) _ Hn).
  destruct (faults w) as [|[|] fs]; simpl; do 2 eexists;
    (split; [reflexivity|]); auto.
Qed.

(** The background task of a job that is not stored writes nothing: the
    store is the same afterwards, whatever the store's calls do. *)
Theorem progress_missing_job_noop (job_id : string) (o : oid) (w : world) (s : store) :
  db w = Some s -> oid_of_string job_id = Some o ->
  find_first (has_id o) (get_coll (cols s) "tuningjob") = None ->
  db (snd (_progress job_id w)) = Some s.
Proof.
  intros Hdb Hid Hn. unfold _progress, try_except.
  rewrite (bind_ok _ _ _ _ _ (oid_ok w job_id o Hid)).
  destruct (update_one_absent w s o "status" (VStr "running") Hdb Hn)
    as (r1 & w1 & E1 & D1 & R1).
  assert (Hfail : forall w', db w' = Some s ->
            db (snd (try_except (o0 <- _oid job_id ;;
                                 _ <- update_one "tuningjob" o0 "status" (VStr "failed") ;;
                                 ret tt)
                                (fun _ => ret tt) w')) = Some s).
  { intros w' D'. unfold try_except.
    rewrite (bind_ok _ _ _ _ _ (oid_ok w' job_id o Hid)).
    destruct (update_one_absent w' s o "status" (VStr "failed") D' Hn)
      as (r3 & w3 & E3 & D3 & [-> | ->]);
      unfold bind; rewrite E3; exact D3. }
  destruct R1 as [-> | ->].
  - rewrite (bind_err _ _ _ _ _ E1). apply Hfail. exact D1.
  - rewrite (bind_ok _ _ _ _ _ E1). cbv beta.
    rewrite (bind_ok _ _ _ _ _ (eq_refl : sleep 2 w1 = (inr tt, w1))). cbv beta.
    rewrite (bind_ok _ _ _ _ _ (oid_ok w1 job_id o Hid)).
    destruct (update_one_absent w1 s o "status" (VStr "completed") D1 Hn)
      as (r2 & w2 & E2 & D2 & [-> | ->]).
    + rewrite (bind_err _ _ _ _ _ E2). apply Hfail. exact D2.
    + rewrite (bind_ok _ _ _ _ _ E2). exact D2.
Qed.

Lemma progress_missing_job_noop_witness :
  db (snd (_progress (oid_str 7) two_jobs_world)) = Some
    (mkStore
      [("tuningjob", [[("_id", VOid 1); ("project_id", VStr "p1"); ("status", VStr "queued")];
                      [("_id", VOid 2); ("project_id", VStr "p2"); ("status", VStr "queued")]])]
      3 "arcynforge").
Proof.
  apply (progress_missing_job_noop (oid_str 7) 7); vm_compute; reflexivity.
Defined.

(** Listing renames a document's stored identifier: "id" holds the string
    form of "_id", and every other key keeps its value. *)
Theorem rename_id_fields (d : doc) (v : value) (k : string) :
  dict_get "_id" d = Some v ->
  dict_get "id" (rename_id d) = Some (VStr (py_str v)) /\
  (String.eqb k "id" = false -> String.eqb k "_id" = false ->
   dict_get k (rename_id d) = dict_get k d).
Proof.
  intros Hv. destruct (dict_pop_of_get _ _ _ Hv) as [d' Hpop].
  unfold rename_id. rewrite Hpop. split.
  - apply dict_get_set_same.
  - intros H1 H2. rewrite dict_get_set_other by exact H1.
    exact (dict_get_pop_other _ _ _ _ _ Hpop H2).
Qed.

Lemma rename_id_fields_witness :
  dict_get "id" (rename_id [("name", VStr "forge"); ("_id", VOid 5)])
    = Some (VStr (py_str (VOid 5))) /\
  (String.eqb "name" "id" = false -> String.eqb "name" "_id" = false ->
   dict_get "name" (rename_id [("name", VStr "forge"); ("_id", VOid 5)])
   = dict_get "name" [("name", VStr "forge"); ("_id", VOid 5)]).
Proof.
  apply rename_id_fields. reflexivity.
Defined.

Lemma pop_found o ds d w :
  find_first (has_id o) ds = Some d -> exists v, fst (pop_id (Some d) w) = inr v.
Proof.
  intros Hd. destruct (dict_pop_of_get _ _ _ (has_id_get _ _ (find_first_sat _ _ _ Hd)))
    as [d' Hpop].
  unfold pop_id. rewrite Hpop. eexists. reflexivity.
Qed.

Lemma with_limit_cases l k w :
  (exists lim, with_limit l k w = k lim w) \/ with_limit l k w = raise validation_error w.
Proof. destruct l; simpl; [left; eauto | left; eauto | right; reflexivity]. Qed.

Ltac in_codes := simpl; repeat first [left; reflexivity | right].

Lemma get_by_id_codes w s coll msg id :
  db w = Some s -> faults w = [] ->
  In (status_code (fst ((require_db ;;;
                          o <- _oid id ;;
                          doc <- find_one coll o ;;
                          if falsy_doc doc then raise (HTTPError 404 msg)
                          else pop_id doc) w)))
     [200; 400; 404; 422].
Proof.
  intros Hdb Hf.
  rewrite (bind_ok _ _ _ _ _ (require_db_ok w s Hdb)).
  destruct (oid_of_string id) as [o|] eqn:Hid.
  2: { rewrite (bind_err _ _ _ _ _ (oid_err w id Hid)). in_codes. }
  rewrite (bind_ok _ _ _ _ _ (oid_ok w id o Hid)).
  unfold find_one. rewrite (bind_ok _ _ _ _ _ (store_op_healthy _ _ w s Hdb Hf)).
  cbn [fst snd].
  destruct (find_first (has_id o) (get_coll (cols s) coll)) as [d|] eqn:Hd.
  2: { in_codes. }
  destruct (falsy_doc (Some d)); [in_codes|].
  destruct (pop_found o _ d (set_db (set_faults (set_log w (log w ++ [CFindOne coll o])) [])
                               (Some s)) Hd) as [v Hv].
  rewrite Hv. in_codes.
Qed.

(** With the store handle present and the store answering, no request ends
    in a 500 or a 503: every outcome is a success, a malformed identifier, a
    missing record or a rejected body. *)
Theorem healthy_store_no_server_error (r : request) (w : world) (s : store) :
  db w = Some s -> faults w = [] ->
  In (status_code (fst (serve r w))) [200; 400; 404; 422].
Proof.
  intros Hdb Hf.
  destruct r as [| | | |l|b|i|l p|b|i b|i]; simpl serve.
  - in_codes.
  - in_codes.
  - unfold test_database, bind, get_db. rewrite Hdb. cbv beta iota.
    unfold get_database_url, try_except, list_collection_names.
    rewrite (store_op_healthy _ _ w s Hdb Hf). in_codes.
  - in_codes.
  - destruct (with_limit_cases l list_projects w) as [[lim ->] | ->]; [|in_codes].
    unfold list_projects.
    rewrite (bind_ok _ _ _ _ _ (require_db_ok w s Hdb)). cbv beta zeta.
    rewrite (bind_ok _ _ _ _ _ (eq_trans (get_documents_store w s _ _ _ Hdb)
                                         (store_op_healthy _ _ w s Hdb Hf))).
    in_codes.
  - destruct (validate_project b) as [pr|]; [|in_codes].
    unfold create_project.
    rewrite (bind_ok _ _ _ _ _ (require_db_ok w s Hdb)).
    rewrite (bind_ok _ _ _ _ _ (create_document_healthy w s _ _ Hdb Hf)). in_codes.
  - exact (get_by_id_codes w s "project" "Project not found" i Hdb Hf).
  - destruct (with_limit_cases l (fun lim => list_tuning_jobs lim p) w)
      as [[lim ->] | ->]; [|in_codes].
    cbv beta. unfold list_tuning_jobs.
    rewrite (bind_ok _ _ _ _ _ (require_db_ok w s Hdb)). cbv beta zeta.
    rewrite (bind_ok _ _ _ _ _ (eq_trans (get_documents_store w s _ _ _ Hdb)
                                         (store_op_healthy _ _ w s Hdb Hf))).
    in_codes.
  - destruct (validate_tuningjob b) as [j|]; [|in_codes].
    unfold create_tuning_job.
    rewrite (bind_ok _ _ _ _ _ (require_db_ok w s Hdb)). cbv zeta.
    rewrite (bind_ok _ _ _ _ _ (create_document_healthy w s _ _ Hdb Hf)). in_codes.
  - destruct (validate_status_body b) as [sb|]; [|in_codes].
    unfold update_tuning_job_status.
    rewrite (bind_ok _ _ _ _ _ (require_db_ok w s Hdb)).
    destruct (oid_of_string i) as [o|] eqn:Hid.
    2: { rewrite (bind_err _ _ _ _ _ (oid_err w i Hid)). in_codes. }
    rewrite (bind_ok _ _ _ _ _ (oid_ok w i o Hid)).
    unfold update_one. rewrite (bind_ok _ _ _ _ _ (store_op_healthy _ _ w s Hdb Hf)).
    destruct (update_first (has_id o) (dict_set "status" (VStr (body_status sb)))
                (get_coll (cols s) "tuningjob")) as [ds|] eqn:Hu.
    2: { in_codes. }
    cbn [fst snd]. change (Z.eqb 1 0) with false. cbv iota.
    set (w1 := set_db _ (Some (with_cols s (put_coll (cols s) "tuningjob" ds)))).
    rewrite (bind_ok _ _ _ _ _ (oid_ok w1 i o Hid)).
    unfold find_one.
    rewrite (bind_ok _ _ _ _ _ (store_op_healthy _ _ w1 _ eq_refl eq_refl)).
    cbn [fst snd]. simpl cols. rewrite get_put_coll.
    destruct (update_first_find _ _ _ _
                (fun d H => eq_trans (has_id_set_status o _ d) H) Hu) as [d Hd].
    rewrite Hd.
    match goal with |- context [pop_id (Some d) ?w2] =>
      destruct (pop_found o ds d w2 Hd) as [v Hv] end.
    rewrite Hv. in_codes.
  - exact (get_by_id_codes w s "tuningjob" "Tuning job not found" i Hdb Hf).
Qed.

Lemma healthy_store_no_server_error_witness :
  In (status_code (fst (serve (UpdateTuningJobStatus (oid_str 2)
                                 (VObj [("status", VStr "paused")])) two_jobs_world)))
     [200; 400; 404; 422].
Proof.
  apply (healthy_store_no_server_error _ two_jobs_world
           (mkStore
              [("tuningjob",
                 [[("_id", VOid 1); ("project_id", VStr "p1"); ("status", VStr "queued")];
                  [("_id", VOid 2); ("project_id", VStr "p2"); ("status", VStr "queued")]])]
              3 "arcynforge")); reflexivity.
Defined.
